(** * SnapBudget: the receipt-text extraction pipeline of [app.py]

    A shallow embedding of [categorize] and of the parsing block of
    [upload_image] (lines 200-279 of [src/app.py]), with the properties of
    the specification stated and settled against it.

    Conventions of the model.
    - Text is a [list ascii]; a character is a code point below 256, on
      which the Python operations used by the source ([str.strip],
      [str.lower], the classes [\s], [\d] and [.] of [re]) are written out
      exactly.  Code points from 256 on are outside the model.
    - Numbers are IEEE binary64 values ([spec_float] with precision 53 and
      [emax] 1024), with the correctly rounded operations of the Standard
      Library's [SpecFloat].
    - [print] is modelled by a list of events carried in the state, and
      [ValueError] by an explicit error type with [try]/[except]. *)

From Stdlib Require Import String Ascii Bool Arith ZArith NArith Lia List.
From Stdlib Require Import Floats.SpecFloat.
From Stdlib Require Import Numbers.DecimalString.
Import ListNotations.

Set Implicit Arguments.

(** Python's [str] is written [text] below; string constants of the source
    are turned into it with [str]. *)
Definition text := list ascii.
Definition str (s : string) : text := list_ascii_of_string s.

(* ================================================================= *)
(** ** Python string operations *)

Module PyStr.

Definition code (c : ascii) : N := N_of_ascii c.

Definition in_range (lo hi : N) (c : ascii) : bool :=
  ((lo <=? code c) && (code c <=? hi))%N.

Definition is_char (n : N) (c : ascii) : bool := (code c =? n)%N.

(** [Py_UNICODE_ISSPACE] below 256: TAB, LF, VT, FF, CR, FS, GS, RS, US,
    SPACE, NEL (0x85) and NBSP (0xA0).  Used by [str.strip] and by the
    class [\s]. *)
Definition is_space (c : ascii) : bool :=
  in_range 9 13 c || in_range 28 32 c || is_char 133 c || is_char 160 c.

(** The class [\d]: decimal digits; below 256 these are [0]-[9]. *)
Definition is_digit (c : ascii) : bool := in_range 48 57 c.

Definition newline : ascii := ascii_of_N 10.
Definition is_newline (c : ascii) : bool := is_char 10 c.

(** [str.lower] on one character: [A]-[Z], and the Latin-1 capitals
    0xC0-0xDE except the multiplication sign 0xD7, move up by 32. *)
Definition lower_char (c : ascii) : ascii :=
  if in_range 65 90 c || (in_range 192 222 c && negb (is_char 215 c))
  then ascii_of_N (code c + 32)
  else c.

Definition lower (s : text) : text := map lower_char s.

Fixpoint lstrip (s : text) : text :=
  match s with
  | c :: s' => if is_space c then lstrip s' else s
  | [] => []
  end.

Definition rstrip (s : text) : text := rev (lstrip (rev s)).

Definition strip (s : text) : text := rstrip (lstrip s).

(** [s.startswith(w)] *)
Fixpoint starts_with (w s : text) : bool :=
  match w, s with
  | [], _ => true
  | a :: w', b :: s' => Ascii.eqb a b && starts_with w' s'
  | _ :: _, [] => false
  end.

(** [w in s] *)
Fixpoint contains (w s : text) : bool :=
  starts_with w s ||
  match s with
  | [] => false
  | _ :: s' => contains w s'
  end.

(** [s.split('\n')] *)
Fixpoint split_lines (s : text) : list text :=
  match s with
  | [] => [[]]
  | c :: s' =>
      if is_newline c then [] :: split_lines s'
      else match split_lines s' with
           | l :: ls => (c :: l) :: ls
           | [] => [[c]]
           end
  end.

(** [s.replace(',', '')] *)
Definition remove_commas (s : text) : text :=
  filter (fun c => negb (is_char 44 c)) s.

End PyStr.

(* ================================================================= *)
(** ** A backtracking matcher for the fragment of [re] the source uses *)

Module Re.

Import PyStr.

(** Capture groups: the most recent binding of a group number wins. *)
Definition caps := list (nat * text).

Fixpoint group (i : nat) (c : caps) : text :=
  match c with
  | [] => []
  | (j, s) :: c' => if Nat.eqb i j then s else group i c'
  end.

Inductive regex : Type :=
| Lit (w : text)                         (* a literal word *)
| Rep (p : ascii -> bool) (lo : nat) (hi : option nat) (greedy : bool)
                                         (* a repeated character class *)
| Seq (r1 r2 : regex)
| Alt (r1 r2 : regex)                    (* r1|r2 *)
| Opt (r : regex)                        (* (?:r)? *)
| Grp (i : nat) (r : regex)              (* capture group number i *)
| Eos.                                   (* $ *)

Definition may_repeat (hi : option nat) : bool :=
  match hi with
  | Some 0 => false
  | _ => true
  end.

Definition dec (hi : option nat) : option nat := option_map pred hi.

Definition within (n : nat) (hi : option nat) : Prop :=
  match hi with
  | Some h => n <= h
  | None => True
  end.

Definition or_else {A} (x y : option A) : option A :=
  match x with
  | Some a => Some a
  | None => y
  end.

(** [s.startswith(w)], returning what follows [w]. *)
Fixpoint drop_prefix (w s : text) : option text :=
  match w, s with
  | [], _ => Some s
  | a :: w', b :: s' => if Ascii.eqb a b then drop_prefix w' s' else None
  | _ :: _, [] => None
  end.

(** [$] without [re.MULTILINE]: at the end of the text, or just before
    a newline that ends it. *)
Definition at_end (s : text) : bool :=
  match s with
  | [] => true
  | [c] => is_newline c
  | _ => false
  end.

Section Matcher.

Variable A : Type.

(** Greedy repetition: take a character when allowed and come back to
    stopping here only when everything after that failed. *)
Fixpoint rep_greedy (p : ascii -> bool) (lo : nat) (hi : option nat)
         (s : text) (k : text -> option A) : option A :=
  let stop := if Nat.eqb lo 0 then k s else None in
  match s with
  | x :: s' =>
      if p x && may_repeat hi
      then or_else (rep_greedy p (pred lo) (dec hi) s' k) stop
      else stop
  | [] => stop
  end.

(** Lazy repetition: stop as soon as allowed, take one more character
    only when the rest of the pattern failed. *)
Fixpoint rep_lazy (p : ascii -> bool) (lo : nat) (hi : option nat)
         (s : text) (k : text -> option A) : option A :=
  let stop := if Nat.eqb lo 0 then k s else None in
  match s with
  | x :: s' =>
      if p x && may_repeat hi
      then or_else stop (rep_lazy p (pred lo) (dec hi) s' k)
      else stop
  | [] => stop
  end.

End Matcher.

(** [run r s c k]: match [r] at the front of [s] with the captures [c] so
    far, then continue with [k] on what is left; alternatives are tried
    in the order of the backtracking matcher of [re]. *)
Fixpoint run (r : regex) (s : text) (c : caps)
         (k : text -> caps -> option caps) {struct r} : option caps :=
  match r with
  | Lit w =>
      match drop_prefix w s with
      | Some s' => k s' c
      | None => None
      end
  | Rep p lo hi true => rep_greedy p lo hi s (fun s' => k s' c)
  | Rep p lo hi false => rep_lazy p lo hi s (fun s' => k s' c)
  | Seq r1 r2 => run r1 s c (fun s' c' => run r2 s' c' k)
  | Alt r1 r2 => or_else (run r1 s c k) (run r2 s c k)
  | Opt r1 => or_else (run r1 s c k) (k s c)
  | Grp i r1 =>
      run r1 s c
          (fun s' c' => k s' ((i, firstn (length s - length s') s) :: c'))
  | Eos => if at_end s then k s c else None
  end.

(** [re.match(r, s)]: anchored at the start. *)
Definition re_match (r : regex) (s : text) : option caps :=
  run r s [] (fun _ c => Some c).

(** [re.search(r, s)]: the first start position that matches. *)
Fixpoint re_search (r : regex) (s : text) : option caps :=
  match re_match r s with
  | Some c => Some c
  | None =>
      match s with
      | [] => None
      | _ :: s' => re_search r s'
      end
  end.

(** What [r] can consume: [matches r s1 s2 c c'] says that [r] matches
    [s1] when [s2] follows, turning the captures [c] into [c']. *)
Fixpoint matches (r : regex) (s1 s2 : text) (c c' : caps) : Prop :=
  match r with
  | Lit w => s1 = w /\ c' = c
  | Rep p lo hi _ =>
      forallb p s1 = true /\ lo <= length s1 /\ within (length s1) hi /\
      c' = c
  | Seq r1 r2 =>
      exists a b cm,
        s1 = a ++ b /\ matches r1 a (b ++ s2) c cm /\ matches r2 b s2 cm c'
  | Alt r1 r2 => matches r1 s1 s2 c c' \/ matches r2 s1 s2 c c'
  | Opt r1 => matches r1 s1 s2 c c' \/ (s1 = [] /\ c' = c)
  | Grp i r1 => exists c0, matches r1 s1 s2 c c0 /\ c' = (i, s1) :: c0
  | Eos => s1 = [] /\ at_end s2 = true /\ c' = c
  end.

End Re.

(* ================================================================= *)
(** ** Python floats *)

Module PyFloat.

Import PyStr.

Definition prec : Z := 53.
Definition emax : Z := 1024.

Definition float := spec_float.

Definition fadd : float -> float -> float := SFadd prec emax.
Definition fsub : float -> float -> float := SFsub prec emax.
Definition fabs : float -> float := SFabs.
Definition feqb : float -> float -> bool := SFeqb.
Definition fltb : float -> float -> bool := SFltb.
Definition fleb : float -> float -> bool := SFleb.

(** The double nearest to [n / d], rounded once (ties to even). *)
Definition of_ratio (n : N) (d : positive) : float :=
  match n with
  | N0 => S754_zero false
  | Npos p => SFdiv prec emax (S754_finite false p 0) (S754_finite false d 0)
  end.

(** The double of an integer literal. *)
Definition of_int (z : Z) : float := binary_normalize prec emax z 0 false.

Definition zero : float := S754_zero false.

Inductive exn : Type := ValueError.

(** A computation that returns a value or raises. *)
Definition exc (A : Type) : Type := (exn + A)%type.

Definition ret {A} (a : A) : exc A := inr a.
Definition raise {A} (e : exn) : exc A := inl e.

Definition bind {A B} (m : exc A) (f : A -> exc B) : exc B :=
  match m with
  | inl e => inl e
  | inr a => f a
  end.

(** [try: body except ValueError: handler] *)
Definition try_except {A} (body : exc A) (handler : exc A) : exc A :=
  match body with
  | inl ValueError => handler
  | inr a => inr a
  end.

Definition digit_value (c : ascii) : N := (code c - 48)%N.

(** The number written by a run of decimal digits. *)
Definition digits_value (ds : text) : N :=
  fold_left (fun acc c => (10 * acc + digit_value c)%N) ds 0%N.

Fixpoint pow10 (k : nat) : positive :=
  match k with
  | O => 1%positive
  | S k' => (10 * pow10 k')%positive
  end.

Fixpoint take_digits (s : text) : text * text :=
  match s with
  | c :: s' =>
      if is_digit c then let (ds, r) := take_digits s' in (c :: ds, r)
      else ([], s)
  | [] => ([], [])
  end.

(** [float(s)] for a numeral [s] written with the digits [0]-[9] and the
    point only, which is all the source passes to it (a captured
    [[\d,]+(?:\.\d{1,2})?] without its commas): digits, then optionally a
    point and digits, at least one digit in all; anything else over these
    characters raises [ValueError].  The value is rounded once to the
    nearest double, as [float] does. *)
Definition py_float (s : text) : exc float :=
  let (ip, rest) := take_digits s in
  match rest with
  | [] =>
      match ip with
      | [] => raise ValueError
      | _ => ret (of_ratio (digits_value ip) 1)
      end
  | c :: fp =>
      if is_char 46 c && forallb is_digit fp
         && negb (Nat.eqb (length ip + length fp) 0)
      then ret (of_ratio (digits_value (ip ++ fp)) (pow10 (length fp)))
      else raise ValueError
  end.

End PyFloat.

(* ================================================================= *)
(** ** [app.py] *)

Module App.

Import PyStr Re PyFloat.
Local Open Scope string_scope.

(** [any(k in name for k in ks)] *)
Definition any_in (ks : list string) (name : text) : bool :=
  existsb (fun k => contains (str k) name) ks.

(** [categorize(name)], lines 89-108. *)
Definition categorize (name : text) : string :=
  let name := lower name in
  if any_in ["milk"; "rice"; "dal"; "bread"; "oil"; "eggs"; "vegetable";
             "atta"; "flour"; "sugar"; "salt"] name
  then "Essentials"
  else if any_in ["chocolate"; "biscuit"; "lays"; "snack"; "chips";
                  "cold drink"; "soda"; "candy"; "cookies"] name
  then "Snacks"
  else if any_in ["shirt"; "jeans"; "shoe"; "sandal"; "dress"; "trousers";
                  "jacket"; "tshirt"; "socks"] name
  then "Clothing"
  else if any_in ["usb"; "charger"; "headphone"; "phone"; "mouse";
                  "keyboard"; "laptop"; "tablet"; "speaker"] name
  then "Electronics"
  else if any_in ["medicine"; "pharmacy"; "pill"; "bandage"] name
  then "Health"
  else if any_in ["restaurant"; "cafe"; "food"; "dinner"; "lunch";
                  "breakfast"; "pizza"; "burger"] name
  then "Dining Out"
  else if any_in ["fuel"; "petrol"; "diesel"; "gas"; "transport"] name
  then "Transport"
  else if any_in ["electricity"; "water"; "internet"; "rent"] name
  then "Utilities"
  else "Other".

(** The data of one request. *)
Record item : Type := Item { name : text; price : float }.

(** [category_totals]: a dict from category to sum, in insertion order. *)
Definition dict := list (string * float).

Fixpoint dict_get (d : dict) (key : string) (default : float) : float :=
  match d with
  | [] => default
  | (k, v) :: d' => if String.eqb k key then v else dict_get d' key default
  end.

Fixpoint dict_set (d : dict) (key : string) (v : float) : dict :=
  match d with
  | [] => [(key, v)]
  | (k, w) :: d' =>
      if String.eqb k key then (k, v) :: d' else (k, w) :: dict_set d' key v
  end.

(** What the parsing loop prints, one constructor per [print]. *)
Inductive event : Type :=
| PriceParseError (line price_str : text)      (* line 228 *)
| TotalOverridden (t : float)                  (* line 241 *)
| TotalSet (t : float)                         (* line 244 *)
| TotalParseError (line : text)                (* line 246 *)
| NoItemMatch (line : text).                   (* line 247 *)

(** The variables of the loop, and the output so far. *)
Record state : Type := State {
  items : list item;
  total : float;
  category_totals : dict;
  printed : list event
}.

Definition init : state :=
  {| items := []; total := zero; category_totals := []; printed := [] |}.

Definition print (e : event) (st : state) : state :=
  {| items := items st; total := total st;
     category_totals := category_totals st;
     printed := printed st ++ [e] |}.

Definition set_total (t : float) (st : state) : state :=
  {| items := items st; total := t;
     category_totals := category_totals st;
     printed := printed st |}.

(** Lines 223-226. *)
Definition add_item (nm : text) (p : float) (st : state) : state :=
  let cat := categorize nm in
  {| items := items st ++ [Item nm p];
     total := fadd (total st) p;
     category_totals :=
       dict_set (category_totals st) cat
                (fadd (dict_get (category_totals st) cat zero) p);
     printed := printed st |}.

Definition exclude_words : list string :=
  ["gst"; "total"; "invoice"; "bill"; "phone"; "contact"; "care"; "amount";
   "tax"; "subtotal"; "discount"; "change"; "cash"; "card"; "visa";
   "mastercard"; "qty"; "quantity"; "rate"; "price"; "item"; "description";
   "unit"].

(** Character classes of the two patterns.  The source file spells the
    rupee sign as the three characters U+00E2, U+201A, U+00B9; the second
    one is not below 256 and cannot occur in a modelled text. *)
Definition any_char (c : ascii) : bool := negb (is_newline c).     (* . *)
Definition is_dot (c : ascii) : bool := is_char 46 c.
Definition is_comma (c : ascii) : bool := is_char 44 c.
Definition rupee (c : ascii) : bool := is_char 226 c || is_char 185 c.
Definition item_sep (c : ascii) : bool :=
  is_dot c || is_char 58 c || rupee c || is_space c.
Definition total_sep (c : ascii) : bool := is_char 58 c || rupee c.
Definition comma_or_space (c : ascii) : bool := is_comma c || is_space c.
Definition digit_or_comma (c : ascii) : bool := is_digit c || is_comma c.

Notation "r1 ;; r2" := (Seq r1 r2) (at level 61, right associativity).

(** [[\d,]+(?:\.\d{1,2})?] *)
Definition number_re : regex :=
  Rep digit_or_comma 1 None true ;;
  Opt (Rep is_dot 1 (Some 1) true ;; Rep is_digit 1 (Some 2) true).

(** Line 216: [(.+?)\s*[\.:...\s]?[,\s]*([\d,]+(?:\.\d{1,2})?)$] *)
Definition item_re : regex :=
  Grp 1 (Rep any_char 1 None false) ;;
  Rep is_space 0 None true ;;
  Rep item_sep 0 (Some 1) true ;;
  Rep comma_or_space 0 None true ;;
  Grp 2 number_re ;;
  Eos.

(** Line 232: [(?:total|sum|amt|balance)\s*[:...]?\s*([\d,]+(?:\.\d{1,2})?)$] *)
Definition total_re : regex :=
  Alt (Lit (str "total"))
      (Alt (Lit (str "sum")) (Alt (Lit (str "amt")) (Lit (str "balance")))) ;;
  Rep is_space 0 None true ;;
  Rep total_sep 0 (Some 1) true ;;
  Rep is_space 0 None true ;;
  Grp 1 number_re ;;
  Eos.

(** [not s] *)
Definition is_empty {A} (s : list A) : bool :=
  match s with
  | [] => true
  | _ => false
  end.

(** [line] is skipped by line 209. *)
Definition skipped (line : text) : bool :=
  is_empty line || any_in exclude_words (lower line).

Definition f0_01 : float := of_ratio 1 100.
Definition f100000 : float := of_ratio 100000 1.

Definition price_ok (p : float) : bool := fleb f0_01 p && fleb p f100000.

(** Lines 238-244, once [extracted_total] is known. *)
Definition reconcile (extracted_total : float) (st : state) : state :=
  if fltb (of_int 0) extracted_total
     && fltb (fabs (fsub extracted_total (total st))) (of_int 100)
  then let st' := set_total extracted_total st in
       print (TotalOverridden (total st')) st'
  else if feqb (total st) (of_int 0) && fltb (of_int 0) extracted_total
  then let st' := set_total extracted_total st in
       print (TotalSet (total st')) st'
  else st.

(** Lines 217-229: the body of [if match:]. *)
Definition item_branch (line : text) (m : caps) (st : state) : exc state :=
  let nm := strip (group 1 m) in
  let price_str := remove_commas (group 2 m) in
  try_except
    (bind (py_float price_str) (fun p =>
       ret (if price_ok p then add_item nm p st else st)))
    (ret (print (PriceParseError line price_str) st)).

(** Lines 230-247: the body of [else:]. *)
Definition total_branch (line : text) (st : state) : exc state :=
  bind
    match re_search total_re (lower line) with
    | Some tm =>
        try_except
          (bind (py_float (remove_commas (group 1 tm))) (fun extracted_total =>
             ret (reconcile extracted_total st)))
          (ret (print (TotalParseError line) st))
    | None => ret st
    end
    (fun st' => ret (print (NoItemMatch line) st')).

(** One turn of the loop of line 207. *)
Definition process_line (st : state) (raw : text) : exc state :=
  let line := strip raw in
  if skipped line then ret st
  else match re_match item_re line with
       | Some m => item_branch line m st
       | None => total_branch line st
       end.

(** Lines 200-247. *)
Fixpoint process_lines (st : state) (lines : list text) : exc state :=
  match lines with
  | [] => ret st
  | l :: ls => bind (process_line st l) (fun st' => process_lines st' ls)
  end.

Definition parse (extracted_text : text) : exc state :=
  process_lines init (split_lines (strip extracted_text)).

End App.

(* ================================================================= *)
(** ** The savings tip and the response *)

Module Tip.

Import PyStr PyFloat App.
Local Open Scope string_scope.

(** The messages of lines 256-269, as the UTF-8 text of the source. *)
Definition balanced : string :=
  "ðŸ‘ Balanced receiptâ€”track these patterns over time to stay on target.".
Definition no_data : string :=
  "ðŸ¤” Could not extract any meaningful data. Try a clearer image or manually enter details!".
Definition electronics : string :=
  "âš¡ Electronics are expensiveâ€”compare prices or delay big upgrades.".
Definition lots_of_snacks : string :=
  "ðŸ« Lots of snacksâ€”consider buying in bulk to save long-term.".
Definition no_essentials : string :=
  "ðŸ“Œ No essentials detectedâ€”are you skipping household basics?".
Definition excellent : string :=
  "âœ… Excellent budgetingâ€”keep up the good discipline!".
Definition high_spend_prefix : string :=
  "ðŸ“‰ High spend alert: â‚¹".
Definition high_spend_suffix : string :=
  ". Try to set weekly limits.".

(** [x / 2^k] rounded to the nearest integer, ties to even. *)
Definition round_half_even (x : N) (k : N) : N :=
  let q := N.shiftr x k in
  let r := (x - N.shiftl q k)%N in
  match (2 * r ?= N.shiftl 1 k)%N with
  | Lt => q
  | Gt => (q + 1)%N
  | Eq => if N.even q then q else (q + 1)%N
  end.

Definition decimal (n : N) : string := NilZero.string_of_uint (N.to_uint n).

Definition two_digits (n : N) : string :=
  if (n <? 10)%N then "0" ++ decimal n else decimal n.

Definition sign (s : bool) : string := if s then "-" else "".

(** [f"{x:.2f}"]: the exact value of [x] rounded to two decimals. *)
Definition format_2f (x : float) : string :=
  match x with
  | S754_zero s => sign s ++ "0.00"
  | S754_infinity s => sign s ++ "inf"
  | S754_nan => "nan"
  | S754_finite s m e =>
      let cents :=
        match e with
        | Zneg k => round_half_even (100 * Npos m) (Npos k)
        | _ => N.shiftl (100 * Npos m) (Z.to_N e)
        end in
      sign s ++ decimal (cents / 100) ++ "." ++ two_digits (cents mod 100)
  end.

Definition high_spend (t : float) : string :=
  high_spend_prefix ++ format_2f t ++ high_spend_suffix.

Definition in_category (cat : string) (i : item) : bool :=
  String.eqb (categorize (name i)) cat.

(** Lines 250-269. *)
Definition savings_tip (its : list item) (totals : dict) (t : float)
  : string :=
  let essentials := filter (in_category "Essentials") its in
  let snacks := filter (in_category "Snacks") its in
  let electronics_total := dict_get totals "Electronics" zero in
  if feqb t (of_int 0) then no_data
  else if fltb (of_int 1500) electronics_total then electronics
  else if (3 <=? length snacks)%nat then lots_of_snacks
  else if is_empty essentials && fltb (of_int 0) t then no_essentials
  else if fltb (of_int 0) t && fltb t (of_int 500) then excellent
  else if fltb (of_int 2500) t then high_spend t
  else balanced.

(** The dict of lines 271-279. *)
Record receipt : Type := Receipt {
  username : string;
  timestamp : string;
  r_items : list item;
  r_total : float;
  category_breakdown : dict;
  savings_tip_of : string;
  image_url : string
}.

(** What a request sees of the outside: the clock, the URL made for the
    saved image, and the lines of [results.json]. *)
Record world : Type := World {
  now : string;
  url : string;
  results_json : list receipt
}.

(** [save_result] with [USE_AWS = False]: one more line in the file. *)
Definition save_result (r : receipt) (w : world) : world :=
  {| now := now w; url := url w; results_json := results_json w ++ [r] |}.

Inductive response : Type :=
| Ok200 (r : receipt)
| Error500.

(** Lines 200-293 of [upload_image], from the text the OCR returned: the
    receipt is built, saved and sent; whatever is raised on the way is
    turned into a 500 by line 289. *)
Definition upload_image (extracted_text : text) (w : world)
  : response * world :=
  match parse extracted_text with
  | inr st =>
      let result :=
        {| username := "madhu";
           timestamp := now w;
           r_items := items st;
           r_total := total st;
           category_breakdown := category_totals st;
           savings_tip_of :=
             savings_tip (items st) (category_totals st) (total st);
           image_url := url w |} in
      (Ok200 result, save_result result w)
  | inl _ => (Error500, w)
  end.

End Tip.

(* ================================================================= *)
(** ** The specification's reading of the same operations *)

Module Spec.

Import PyStr Re PyFloat App Tip.
Local Open Scope string_scope.

(** The nine categories of the data model. *)
Definition categories : list string :=
  ["Essentials"; "Snacks"; "Clothing"; "Electronics"; "Health";
   "Dining Out"; "Transport"; "Utilities"; "Other"].

(** Section 4.1 as a table: the keyword list of each category, in the
    priority order the specification fixes. *)
Definition keyword_table : list (string * list string) :=
  [("Essentials", ["milk"; "rice"; "dal"; "bread"; "oil"; "eggs";
                   "vegetable"; "atta"; "flour"; "sugar"; "salt"]);
   ("Snacks", ["chocolate"; "biscuit"; "lays"; "snack"; "chips";
               "cold drink"; "soda"; "candy"; "cookies"]);
   ("Clothing", ["shirt"; "jeans"; "shoe"; "sandal"; "dress"; "trousers";
                 "jacket"; "tshirt"; "socks"]);
   ("Electronics", ["usb"; "charger"; "headphone"; "phone"; "mouse";
                    "keyboard"; "laptop"; "tablet"; "speaker"]);
   ("Health", ["medicine"; "pharmacy"; "pill"; "bandage"]);
   ("Dining Out", ["restaurant"; "cafe"; "food"; "dinner"; "lunch";
                   "breakfast"; "pizza"; "burger"]);
   ("Transport", ["fuel"; "petrol"; "diesel"; "gas"; "transport"]);
   ("Utilities", ["electricity"; "water"; "internet"; "rent"])].

(** A keyword of the list occurs in the lowercased name. *)
Definition keyword_hit (name : text) (row : string * list string) : bool :=
  existsb (fun k => contains (str k) (lower name)) (snd row).

(** First matching category wins; no match is [Other]. *)
Definition first_category (name : text) : string :=
  match find (keyword_hit name) keyword_table with
  | Some row => fst row
  | None => "Other"
  end.

(** Section 4.4, step 4: the rules in priority order, each a condition
    and the tip it gives; the first rule whose condition holds wins. *)
Definition tip_rules (its : list item) (totals : dict) (t : float)
  : list (bool * string) :=
  [(feqb t (of_int 0), no_data);
   (fltb (of_int 1500) (dict_get totals "Electronics" zero), electronics);
   ((3 <=? length (filter (in_category "Snacks") its))%nat, lots_of_snacks);
   (is_empty (filter (in_category "Essentials") its) && fltb (of_int 0) t,
    no_essentials);
   (fltb (of_int 0) t && fltb t (of_int 500), excellent);
   (fltb (of_int 2500) t,
    high_spend_prefix ++ format_2f t ++ high_spend_suffix)].

Definition first_rule (rules : list (bool * string)) (default : string)
  : string :=
  match find fst rules with
  | Some rule => snd rule
  | None => default
  end.

(** The prices of the items added up in order, from [0.0]. *)
Definition sum_prices (its : list item) : float :=
  fold_left (fun acc i => fadd acc (price i)) its zero.

Definition is_some {A} (o : option A) : bool :=
  match o with
  | Some _ => true
  | None => false
  end.

(** The body of [if total_match:] (line 233) runs for the stripped
    [line]: it is not skipped, the item pattern does not match it and
    the total pattern is found in it. *)
Definition total_line_detected (line : text) : bool :=
  negb (skipped line)
  && negb (is_some (re_match item_re line))
  && is_some (re_search total_re (lower line)).

(** The messages that only the body of [if total_match:] prints. *)
Definition total_event (e : event) : bool :=
  match e with
  | TotalOverridden _ | TotalSet _ | TotalParseError _ => true
  | _ => false
  end.

(** The stripped lines the loop of line 207 goes through. *)
Definition lines_of (extracted_text : text) : list text :=
  map strip (split_lines (strip extracted_text)).

(** A numeric token: digits and thousands separators, at least one,
    then optionally a point and one or two digits. *)
Definition number_shape (tok : text) : Prop :=
  exists dc frac : text,
    tok = (dc ++ frac)%list /\ forallb digit_or_comma dc = true /\
    1 <= length dc /\
    (frac = [] \/
     exists d ds,
       frac = d :: ds /\ is_dot d = true /\ forallb is_digit ds = true /\
       1 <= length ds <= 2).

(** Step 3 of section 4.3 and step 4 after it, as the specification words
    them: a line that matches the item pattern without giving a valid
    item is handed to the total-line attempt. *)
Definition fall_through (st : state) (line : text) : exc state :=
  total_branch line st.

End Spec.

(* ================================================================= *)
(** ** The rest of [app.py], [home.py] and [dashboard.py] *)

Module Pages.

Import PyStr Re PyFloat App Tip.
Local Open Scope string_scope.

(** [s.rstrip('/')] *)
Fixpoint lstrip_char (ch : ascii) (s : text) : text :=
  match s with
  | c :: s' => if Ascii.eqb c ch then lstrip_char ch s' else s
  | [] => []
  end.

Definition rstrip_char (ch : ascii) (s : text) : text :=
  rev (lstrip_char ch (rev s)).

Definition slash : ascii := ascii_of_N 47.

(** [upload_to_s3_simulated(file_path, filename)], lines 80-87 of [app.py],
    with [request.host_url] as an argument. *)
Definition upload_to_s3_simulated (host_url filename : text) : text :=
  (rstrip_char slash host_url ++ str "/uploads/" ++ filename)%list.

(** Line 107 of [home.py]: [image_url and image_url.startswith("http")]. *)
Definition home_shows_image (image_url : text) : bool :=
  negb (is_empty image_url) && starts_with (str "http") image_url.

(** What the result part of [home.py] (lines 77-111) puts on the page. *)
Inductive widget : Type :=
| TotalSpent (t : float)                 (* line 80 *)
| ItemsTable (its : list item)           (* lines 84-86 *)
| NoItemsWarning                         (* line 88 *)
| CategoryChart (d : dict)               (* lines 92-97 *)
| NoBreakdownWarning                     (* line 99 *)
| TipBox (tip : string)                  (* line 103 *)
| ProcessedImage (image_url : string)    (* lines 108-109 *)
| NoImageWarning.                        (* line 111 *)

(** Lines 77-111 of [home.py] on the receipt a 200 response carries. *)
Definition home_view (data : receipt) : list widget :=
  [TotalSpent (r_total data);
   if is_empty (r_items data) then NoItemsWarning
   else ItemsTable (r_items data);
   if is_empty (category_breakdown data) then NoBreakdownWarning
   else CategoryChart (category_breakdown data);
   TipBox (savings_tip_of data);
   if home_shows_image (str (image_url data))
   then ProcessedImage (image_url data)
   else NoImageWarning].

Definition text_eqb (a b : text) : bool :=
  if list_eq_dec ascii_dec a b then true else false.

(** [x in displayed] *)
Definition mem (x : text) (displayed : list text) : bool :=
  existsb (text_eqb x) displayed.

(** Line 92 of [dashboard.py]: [entry.get("image_url", "").strip().lower()]. *)
Definition normalised_url (entry : receipt) : text :=
  lower (strip (str (image_url entry))).

(** Line 93 of [dashboard.py]: the entry has no image to show. *)
Definition no_image (image_url : text) : bool :=
  is_empty image_url || text_eqb image_url (str "0")
  || negb (starts_with (str "http") image_url).

(** How the loop over the entries ends: it reaches the end of the file,
    or a call raises and the page stops there. *)
Inductive page_end : Type :=
| Completed
| Raised.

(** Lines 91-118 of [dashboard.py], from the point where the loop is
    reached, when no delete button is pressed: the entries whose image is
    shown, in order, and how the loop ends.  [displayed] is the set of the
    URLs shown so far and [keys] the keys of the buttons made so far.
    [is_date] says which timestamps [pd.to_datetime] accepts: line 101
    raises on the others, before the image of the entry is shown.  Line 104
    raises when its key, the timestamp, was already given to a button,
    after the image of the entry was shown by line 102. *)
Fixpoint gallery (is_date : string -> bool) (displayed : list text)
         (keys : list string) (raw_data : list receipt)
  : list receipt * page_end :=
  match raw_data with
  | [] => ([], Completed)
  | entry :: rest =>
      let image_url := normalised_url entry in
      if no_image image_url then gallery is_date displayed keys rest
      else if mem image_url displayed then gallery is_date displayed keys rest
      else if negb (is_date (timestamp entry)) then ([], Raised)
      else if existsb (String.eqb (timestamp entry)) keys
      then ([entry], Raised)
      else let (shown, how) :=
             gallery is_date (image_url :: displayed)
                     (timestamp entry :: keys) rest in
           (entry :: shown, how)
  end.

(** Line 108 of [dashboard.py]: what is written back to [results.json]
    when the delete button of [entry] is pressed. *)
Definition delete_receipt (entry : receipt) (raw_data : list receipt)
  : list receipt :=
  filter (fun e => negb (String.eqb (timestamp e) (timestamp entry))) raw_data.

(** [max(d, key=d.get)]: the first key whose value no later value exceeds;
    [ValueError] on an empty dict. *)
Fixpoint max_from (best : string) (best_val : float) (d : dict) : string :=
  match d with
  | [] => best
  | (k, v) :: d' =>
      if fltb best_val v then max_from k v d' else max_from best best_val d'
  end.

Definition max_key (d : dict) : exc string :=
  match d with
  | [] => raise ValueError
  | (k, v) :: d' => ret (max_from k v d')
  end.

(** One row of [receipt_df]. *)
Record row : Type := Row {
  row_timestamp : string;
  row_category : string;
  row_item : text;
  row_price : float;
  row_image_url : string
}.

(** Lines 53-60 of [dashboard.py] for one receipt: a row per item, each
    labelled with the category of the largest sum of the receipt. *)
Fixpoint rows_of_items (r : receipt) (its : list item) : exc (list row) :=
  match its with
  | [] => ret []
  | i :: its' =>
      bind (max_key (category_breakdown r)) (fun cat =>
      bind (rows_of_items r its') (fun rows =>
      ret ({| row_timestamp := timestamp r;
              row_category := cat;
              row_item := name i;
              row_price := price i;
              row_image_url := image_url r |} :: rows)))
  end.

(** Lines 51-60 of [dashboard.py]. *)
Fixpoint dashboard_rows (data : list receipt) : exc (list row) :=
  match data with
  | [] => ret []
  | r :: data' =>
      bind (rows_of_items r (r_items r)) (fun rows =>
      bind (dashboard_rows data') (fun rows' => ret (rows ++ rows')%list))
  end.

(** Line 66 of [dashboard.py]: the rows the charts are drawn from. *)
Definition charted (rows : list row) : list row :=
  filter (fun r => fleb (of_int 1) (row_price r)
                   && fleb (row_price r) (of_int 10000)) rows.

(** The line gives the item [nm], [p]: it is not skipped, the item pattern
    matches it, the name is the stripped first group, and the price is what
    [float] makes of the second group without its commas and passes the
    test of line 222. *)
Definition yields_item (line : text) (nm : text) (p : float) : Prop :=
  skipped line = false /\
  exists m,
    re_match item_re line = Some m /\
    nm = strip (group 1 m) /\
    py_float (remove_commas (group 2 m)) = inr p /\
    price_ok p = true.

End Pages.

(* ================================================================= *)
(** ** The numeral a line ends with *)

Module Reading.

Import PyStr Re PyFloat App.




End Reading.

(* ================================================================= *)
(** ** The matcher finds a match exactly when there is one *)

Module ReFacts.

Import PyStr Re.

Lemma or_else_some {A} (x y : option A) (a : A) :
  or_else x y = Some a -> x = Some a \/ (x = None /\ y = Some a).
Proof. destruct x; simpl; intros H; [left | right]; auto. Qed.

Lemma or_else_left {A} (x y : option A) : x <> None -> or_else x y <> None.
Proof. destruct x; simpl; congruence. Qed.

Lemma or_else_right {A} (x y : option A) : y <> None -> or_else x y <> None.
Proof. destruct x; simpl; congruence. Qed.

Lemma within_step n hi :
  may_repeat hi = true -> within n (dec hi) -> within (S n) hi.
Proof.
  destruct hi as [[|h]|]; simpl; intros E H; try discriminate; auto.
  lia.
Qed.

Lemma within_back n hi :
  within (S n) hi -> may_repeat hi = true /\ within n (dec hi).
Proof.
  destruct hi as [[|h]|]; simpl; intros H; split; auto; lia.
Qed.

Lemma within_zero hi : within 0 hi.
Proof. destruct hi; simpl; auto with arith. Qed.

Section Repetition.

Variable A : Type.
Variable p : ascii -> bool.
Variable k : text -> option A.

Lemma stop_sound lo hi s a :
  (if Nat.eqb lo 0 then k s else None) = Some a ->
  exists s1 s2,
    s = s1 ++ s2 /\ forallb p s1 = true /\ lo <= length s1 /\
    within (length s1) hi /\ k s2 = Some a.
Proof.
  destruct (Nat.eqb_spec lo 0) as [-> | _]; [|discriminate].
  intros H. exists [], s. simpl. auto using within_zero.
Qed.

Lemma cons_sound lo hi x s a :
  p x = true -> may_repeat hi = true ->
  (exists s1 s2,
      s = s1 ++ s2 /\ forallb p s1 = true /\ pred lo <= length s1 /\
      within (length s1) (dec hi) /\ k s2 = Some a) ->
  exists s1 s2,
    x :: s = s1 ++ s2 /\ forallb p s1 = true /\ lo <= length s1 /\
    within (length s1) hi /\ k s2 = Some a.
Proof.
  intros Hp Hm (s1 & s2 & -> & Hall & Hlo & Hhi & Hk).
  exists (x :: s1), s2. simpl. rewrite Hp, Hall.
  repeat split; auto using within_step. lia.
Qed.

Lemma rep_greedy_sound s : forall lo hi a,
  rep_greedy p lo hi s k = Some a ->
  exists s1 s2,
    s = s1 ++ s2 /\ forallb p s1 = true /\ lo <= length s1 /\
    within (length s1) hi /\ k s2 = Some a.
Proof.
  induction s as [|x s IH]; intros lo hi a; simpl.
  - apply stop_sound.
  - destruct (p x && may_repeat hi) eqn:E; [|apply stop_sound].
    apply andb_true_iff in E as [Hp Hm].
    intros H. apply or_else_some in H as [H | [_ H]].
    + apply cons_sound; auto.
    + now apply stop_sound.
Qed.

Lemma rep_lazy_sound s : forall lo hi a,
  rep_lazy p lo hi s k = Some a ->
  exists s1 s2,
    s = s1 ++ s2 /\ forallb p s1 = true /\ lo <= length s1 /\
    within (length s1) hi /\ k s2 = Some a.
Proof.
  induction s as [|x s IH]; intros lo hi a; simpl.
  - apply stop_sound.
  - destruct (p x && may_repeat hi) eqn:E; [|apply stop_sound].
    apply andb_true_iff in E as [Hp Hm].
    intros H. apply or_else_some in H as [H | [_ H]].
    + now apply stop_sound.
    + apply cons_sound; auto.
Qed.

Lemma rep_greedy_complete s1 : forall lo hi s2,
  forallb p s1 = true -> lo <= length s1 -> within (length s1) hi ->
  k s2 <> None ->
  rep_greedy p lo hi (s1 ++ s2) k <> None.
Proof.
  induction s1 as [|x s1 IH]; intros lo hi s2 Hall Hlo Hhi Hk; simpl in *.
  - assert (lo = 0) as -> by lia.
    destruct s2 as [|y s2]; simpl; auto.
    destruct (p y && may_repeat hi); auto using or_else_right.
  - apply andb_true_iff in Hall as [Hp Hall].
    apply within_back in Hhi as [Hm Hhi].
    rewrite Hp, Hm. simpl.
    apply or_else_left, IH; auto. lia.
Qed.

Lemma rep_lazy_complete s1 : forall lo hi s2,
  forallb p s1 = true -> lo <= length s1 -> within (length s1) hi ->
  k s2 <> None ->
  rep_lazy p lo hi (s1 ++ s2) k <> None.
Proof.
  induction s1 as [|x s1 IH]; intros lo hi s2 Hall Hlo Hhi Hk; simpl in *.
  - assert (lo = 0) as -> by lia.
    destruct s2 as [|y s2]; simpl; auto.
    destruct (p y && may_repeat hi); auto using or_else_left.
  - apply andb_true_iff in Hall as [Hp Hall].
    apply within_back in Hhi as [Hm Hhi].
    rewrite Hp, Hm. simpl.
    apply or_else_right, IH; auto. lia.
Qed.

End Repetition.

Lemma drop_prefix_sound w : forall s s',
  drop_prefix w s = Some s' -> s = w ++ s'.
Proof.
  induction w as [|a w IH]; intros [|b s] s'; simpl; try congruence.
  destruct (Ascii.eqb_spec a b) as [-> | _]; [|discriminate].
  intros H. now rewrite (IH _ _ H).
Qed.

Lemma drop_prefix_complete w s : drop_prefix w (w ++ s) = Some s.
Proof.
  induction w as [|a w IH]; simpl; auto.
  now rewrite Ascii.eqb_refl.
Qed.

Lemma firstn_consumed (s1 s2 : text) :
  firstn (length (s1 ++ s2) - length s2) (s1 ++ s2) = s1.
Proof.
  rewrite length_app, Nat.add_sub.
  rewrite firstn_app, Nat.sub_diag, firstn_all. simpl.
  apply app_nil_r.
Qed.

(** Soundness: a result of the matcher comes from a match of the pattern
    followed by a success of the continuation. *)
Lemma run_sound r : forall s c k a,
  run r s c k = Some a ->
  exists s1 s2 c',
    s = s1 ++ s2 /\ matches r s1 s2 c c' /\ k s2 c' = Some a.
Proof.
  induction r as [w | p lo hi g | r1 IH1 r2 IH2 | r1 IH1 r2 IH2 | r1 IH1
                 | i r1 IH1 | ]; intros s c k a H; simpl in *.
  - destruct (drop_prefix w s) as [s'|] eqn:E; [|discriminate].
    apply drop_prefix_sound in E. exists w, s', c. auto.
  - assert (exists s1 s2,
               s = s1 ++ s2 /\ forallb p s1 = true /\ lo <= length s1 /\
               within (length s1) hi /\ k s2 c = Some a)
      as (s1 & s2 & ? & ? & ? & ? & ?).
    { destruct g.
      - apply (rep_greedy_sound p (fun s' => k s' c) s lo hi H).
      - apply (rep_lazy_sound p (fun s' => k s' c) s lo hi H). }
    exists s1, s2, c. auto 6.
  - apply IH1 in H as (a1 & s' & cm & -> & M1 & H).
    apply IH2 in H as (b1 & s2 & c' & -> & M2 & H).
    exists (a1 ++ b1), s2, c'. rewrite <- app_assoc.
    split; auto. split; auto. exists a1, b1, cm. auto.
  - apply or_else_some in H as [H | [_ H]].
    + apply IH1 in H as (s1 & s2 & c' & ? & ? & ?). exists s1, s2, c'. auto.
    + apply IH2 in H as (s1 & s2 & c' & ? & ? & ?). exists s1, s2, c'. auto.
  - apply or_else_some in H as [H | [_ H]].
    + apply IH1 in H as (s1 & s2 & c' & ? & ? & ?). exists s1, s2, c'. auto.
    + exists [], s, c. auto.
  - apply IH1 in H as (s1 & s2 & c0 & -> & M1 & H).
    rewrite firstn_consumed in H.
    exists s1, s2, ((i, s1) :: c0). split; auto. split; auto.
    exists c0. auto.
  - destruct (at_end s) eqn:E; [|discriminate].
    exists [], s, c. auto.
Qed.

(** Completeness: when the pattern has a match after which the
    continuation succeeds whatever the captures, the matcher finds one. *)
Lemma run_complete r : forall s1 s2 c0 c0',
  matches r s1 s2 c0 c0' ->
  forall c k, (forall c', k s2 c' <> None) -> run r (s1 ++ s2) c k <> None.
Proof.
  induction r as [w | p lo hi g | r1 IH1 r2 IH2 | r1 IH1 r2 IH2 | r1 IH1
                 | i r1 IH1 | ]; intros s1 s2 c0 c0' M c k Hk; simpl in *.
  - destruct M as [-> _]. rewrite drop_prefix_complete. apply Hk.
  - destruct M as (Hall & Hlo & Hhi & _).
    destruct g.
    + apply rep_greedy_complete; auto.
    + apply rep_lazy_complete; auto.
  - destruct M as (a & b & cm & -> & M1 & M2).
    rewrite <- app_assoc.
    apply (IH1 _ _ _ _ M1). intros c'. apply (IH2 _ _ _ _ M2). exact Hk.
  - destruct M as [M | M].
    + apply or_else_left. apply (IH1 _ _ _ _ M). exact Hk.
    + apply or_else_right. apply (IH2 _ _ _ _ M). exact Hk.
  - destruct M as [M | [-> _]].
    + apply or_else_left. apply (IH1 _ _ _ _ M). exact Hk.
    + apply or_else_right. apply Hk.
  - destruct M as (c1 & M & _).
    apply (IH1 _ _ _ _ M). intros c'. apply Hk.
  - destruct M as (-> & E & _). simpl. rewrite E. apply Hk.
Qed.

Lemma re_match_sound r s m :
  re_match r s = Some m ->
  exists s1 s2, s = s1 ++ s2 /\ matches r s1 s2 [] m.
Proof.
  unfold re_match. intros H.
  apply run_sound in H as (s1 & s2 & c' & ? & ? & H).
  injection H as ->. exists s1, s2. auto.
Qed.

Lemma re_match_complete r s1 s2 c c' :
  matches r s1 s2 c c' -> re_match r (s1 ++ s2) <> None.
Proof.
  intros M. unfold re_match. apply (run_complete _ _ _ _ _ M). discriminate.
Qed.

Lemma re_search_sound r s : forall m,
  re_search r s = Some m ->
  exists pre rest, s = pre ++ rest /\ re_match r rest = Some m.
Proof.
  induction s as [|x s IH]; intros m; simpl.
  - destruct (re_match r []) eqn:E; [|discriminate].
    intros H. injection H as ->. exists [], []. auto.
  - destruct (re_match r (x :: s)) eqn:E.
    + intros H. injection H as ->. exists [], (x :: s). auto.
    + intros H. apply IH in H as (pre & rest & -> & H).
      exists (x :: pre), rest. auto.
Qed.

End ReFacts.

(* ================================================================= *)
(** ** Facts about the string operations *)

Module StrFacts.

Import PyStr.

(** A statement about one character is settled on the 256 of them. *)
Ltac by_cases_on c :=
  destruct c as [[] [] [] [] [] [] [] []]; vm_compute; try reflexivity;
  try discriminate; auto.

Lemma is_space_lower c : is_space (lower_char c) = is_space c.
Proof. by_cases_on c. Qed.

Lemma is_digit_lower c : is_digit (lower_char c) = is_digit c.
Proof. by_cases_on c. Qed.

Lemma is_newline_lower c : is_newline (lower_char c) = is_newline c.
Proof. by_cases_on c. Qed.

Lemma lower_char_idem c : lower_char (lower_char c) = lower_char c.
Proof. by_cases_on c. Qed.

Lemma lower_idem s : lower (lower s) = lower s.
Proof.
  unfold lower. rewrite map_map. apply map_ext. apply lower_char_idem.
Qed.

Lemma lower_lstrip s : lower (lstrip s) = lstrip (lower s).
Proof.
  induction s as [|c s IH]; simpl; auto.
  rewrite is_space_lower. destruct (is_space c); auto.
Qed.

Lemma lower_strip s : lower (strip s) = strip (lower s).
Proof.
  unfold strip, rstrip, lower.
  rewrite map_rev. fold (lower (lstrip (rev (lstrip s)))).
  rewrite lower_lstrip. unfold lower at 1. rewrite map_rev.
  fold (lower (lstrip s)). now rewrite lower_lstrip.
Qed.

Lemma starts_with_spec w : forall s,
  starts_with w s = true <-> exists b, s = w ++ b.
Proof.
  induction w as [|a w IH]; intros s; simpl.
  - split; eauto.
  - destruct s as [|c s].
    + split; [discriminate | intros [b H]; discriminate].
    + rewrite andb_true_iff, IH. split.
      * intros [E [b ->]]. apply Ascii.eqb_eq in E as ->. eauto.
      * intros [b H]. injection H as -> ->.
        split; [apply Ascii.eqb_refl | eauto].
Qed.

Lemma contains_spec w s :
  contains w s = true <-> exists a b, s = a ++ w ++ b.
Proof.
  induction s as [|c s IH]; simpl; rewrite orb_true_iff, starts_with_spec.
  - split.
    + intros [[b H] | H]; [exists [], b; exact H | discriminate].
    + intros (a & b & H). left.
      destruct a; [exists b; exact H | discriminate].
  - rewrite IH. split.
    + intros [[b H] | (a & b & ->)].
      * exists [], b. exact H.
      * exists (c :: a), b. reflexivity.
    + intros (a & b & H). destruct a as [|x a].
      * left. exists b. exact H.
      * right. injection H as _ ->. eauto.
Qed.

Lemma lstrip_app_nonspace a x r :
  is_space x = false -> lstrip (a ++ x :: r) = lstrip a ++ x :: r.
Proof.
  intros Hx. induction a as [|c a IH]; simpl.
  - now rewrite Hx.
  - destruct (is_space c); auto.
Qed.

Lemma rstrip_app_nonspace a y b :
  is_space y = false -> rstrip (a ++ y :: b) = a ++ y :: rstrip b.
Proof.
  intros Hy. unfold rstrip.
  rewrite rev_app_distr. simpl. rewrite <- app_assoc. simpl.
  rewrite lstrip_app_nonspace by exact Hy.
  rewrite rev_app_distr. simpl. rewrite rev_involutive, <- app_assoc.
  reflexivity.
Qed.

(** Stripping a text leaves a word without whitespace where it was. *)
Lemma contains_strip w s :
  w <> [] -> forallb (fun c => negb (is_space c)) w = true ->
  contains w s = true -> contains w (strip s) = true.
Proof.
  intros Hne Hw H. apply contains_spec in H as (a & b & ->).
  apply contains_spec.
  destruct w as [|x w]; [congruence|].
  destruct (exists_last (l := x :: w)) as (w0 & y & E); [discriminate|].
  assert (Hx : is_space x = false).
  { simpl in Hw. apply andb_true_iff in Hw as [Hx _].
    now apply negb_true_iff in Hx. }
  assert (Hy : is_space y = false).
  { rewrite E, forallb_app in Hw. simpl in Hw.
    apply andb_true_iff in Hw as [_ Hy]. apply andb_true_iff in Hy as [Hy _].
    now apply negb_true_iff in Hy. }
  exists (lstrip a), (rstrip b). unfold strip.
  assert (L : lstrip (a ++ (x :: w) ++ b) = (lstrip a ++ w0) ++ y :: b).
  { simpl. rewrite lstrip_app_nonspace by exact Hx.
    change (x :: w ++ b) with ((x :: w) ++ b).
    rewrite E, <- !app_assoc. reflexivity. }
  rewrite L, rstrip_app_nonspace by exact Hy.
  rewrite E, <- !app_assoc. reflexivity.
Qed.

Lemma forallb_lstrip p s : forallb p s = true -> forallb p (lstrip s) = true.
Proof.
  induction s as [|c s IH]; simpl; auto.
  intros H. destruct (is_space c); auto.
  apply andb_true_iff in H as [_ H]. auto.
Qed.

Lemma forallb_rev (p : ascii -> bool) s : forallb p (rev s) = forallb p s.
Proof.
  induction s as [|c s IH]; simpl; auto.
  rewrite forallb_app, IH. simpl. rewrite andb_true_r. apply andb_comm.
Qed.

Lemma forallb_strip p s : forallb p s = true -> forallb p (strip s) = true.
Proof.
  intros H. unfold strip, rstrip.
  rewrite forallb_rev. apply forallb_lstrip.
  rewrite forallb_rev. now apply forallb_lstrip.
Qed.

(** No line of [split('\n')] holds a newline. *)
Lemma split_lines_no_newline s :
  Forall (fun l => forallb (fun c => negb (is_newline c)) l = true)
         (split_lines s).
Proof.
  induction s as [|c s IH]; simpl.
  - repeat constructor.
  - destruct (is_newline c) eqn:E.
    + constructor; auto.
    + destruct (split_lines s) as [|l ls].
      * repeat constructor. simpl. now rewrite E.
      * inversion IH as [|? ? Hl Hls]; subst.
        constructor; auto. simpl. now rewrite E, Hl.
Qed.

End StrFacts.

(* ================================================================= *)
(** ** What the two patterns of [upload_image] match *)

Module PatternFacts.

Import PyStr Re PyFloat App Spec ReFacts StrFacts.

Lemma number_re_inv tok s2 c c' :
  matches number_re tok s2 c c' -> number_shape tok /\ c' = c.
Proof.
  unfold number_re. cbn [matches].
  intros (dc & frac & cm & -> & (Hdc & Hlen & _ & ->) & M).
  destruct M as [M | [-> ->]].
  - destruct M as (d & ds & cm & -> & (Hd & Hd1 & Hd2 & ->) & Hds).
    destruct Hds as (Hds & Hlo & Hhi & ->).
    split; [|reflexivity].
    exists dc, (d ++ ds). repeat split; auto.
    right. destruct d as [|x [|y d]]; simpl in *; try lia.
    exists x, ds. rewrite andb_true_r in Hd. auto.
  - split; [|reflexivity]. exists dc, []. auto.
Qed.

Lemma number_re_intro tok s2 c :
  number_shape tok -> matches number_re tok s2 c c.
Proof.
  intros (dc & frac & -> & Hdc & Hlen & Hfrac).
  unfold number_re. cbn [matches].
  exists dc, frac, c. split; [reflexivity|].
  split; [simpl; auto|].
  destruct Hfrac as [-> | (d & ds & -> & Hd & Hds & Hlo & Hhi)].
  - right. auto.
  - left. exists [d], ds, c. simpl. rewrite Hd. auto 10.
Qed.

(** A match of the item pattern: the name, what separates it from the
    price, the price token, and the newline [$] may leave at the end. *)
Lemma item_re_inv line m :
  re_match item_re line = Some m ->
  exists g1 mid tok tail,
    line = g1 ++ mid ++ tok ++ tail /\ 1 <= length g1 /\
    number_shape tok /\ at_end tail = true /\ m = [(2, tok); (1, g1)].
Proof.
  intros H. apply re_match_sound in H as (s1 & s2 & E & M).
  unfold item_re in M. cbn [matches] in M.
  destruct M as (g1 & r1 & c1 & E1 & (c0 & (G1a & G1l & _ & ->) & ->) & M).
  destruct M as (ws & r2 & c2 & E2 & (_ & _ & _ & ->) & M).
  destruct M as (sp & r3 & c3 & E3 & (_ & _ & _ & ->) & M).
  destruct M as (cs & r4 & c4 & E4 & (_ & _ & _ & ->) & M).
  destruct M as (tok & r5 & c5 & E5 & (c6 & Mn & ->) & (-> & Eend & ->)).
  apply number_re_inv in Mn as [Hn ->].
  exists g1, (ws ++ sp ++ cs), tok, s2. subst.
  rewrite app_nil_r, <- !app_assoc. auto.
Qed.

(** Any text that ends with a numeric token after at least one character,
    none of them a newline, is matched by the item pattern. *)
Lemma item_re_complete pre tok :
  1 <= length pre -> forallb any_char pre = true -> number_shape tok ->
  re_match item_re (pre ++ tok) <> None.
Proof.
  intros Hlen Hany Hn.
  rewrite <- (app_nil_r (pre ++ tok)).
  apply re_match_complete with (c := []) (c' := [(2, tok); (1, pre)]).
  unfold item_re. cbn [matches].
  exists pre, tok, [(1, pre)]. split; [reflexivity|]. split.
  { exists []. simpl. auto. }
  exists [], tok, [(1, pre)]. split; [reflexivity|]. split.
  { simpl. auto with arith. }
  exists [], tok, [(1, pre)]. split; [reflexivity|]. split.
  { simpl. auto with arith. }
  exists [], tok, [(1, pre)]. split; [reflexivity|]. split.
  { simpl. auto with arith. }
  exists tok, [], [(2, tok); (1, pre)]. split; [now rewrite app_nil_r|]. split.
  { exists [(1, pre)]. split; [|reflexivity]. now apply number_re_intro. }
  auto.
Qed.

(** A hit of the total pattern ends with a numeric token that at least a
    keyword precedes. *)
Lemma total_re_inv s m :
  re_search total_re s = Some m ->
  exists pre tok tail,
    s = pre ++ tok ++ tail /\ 1 <= length pre /\ number_shape tok /\
    at_end tail = true /\ m = [(1, tok)].
Proof.
  intros H. apply re_search_sound in H as (p0 & rest & -> & H).
  apply re_match_sound in H as (s1 & s2 & -> & M).
  unfold total_re in M. cbn [matches] in M.
  destruct M as (kw & r1 & c1 & -> & Hkw & M).
  destruct M as (ws & r2 & c2 & -> & (_ & _ & _ & ->) & M).
  destruct M as (sp & r3 & c3 & -> & (_ & _ & _ & ->) & M).
  destruct M as (cs & r4 & c4 & -> & (_ & _ & _ & ->) & M).
  destruct M as (tok & r5 & c5 & -> & (c6 & Mn & ->) & (-> & Eend & ->)).
  apply number_re_inv in Mn as [Hn ->].
  assert (1 <= length kw /\ c1 = []) as [Hk ->].
  { destruct Hkw as [[-> ->] | [[-> ->] | [[-> ->] | [-> ->]]]];
      simpl; auto with arith. }
  exists (p0 ++ kw ++ ws ++ sp ++ cs), tok, s2.
  rewrite app_nil_r, <- !app_assoc. repeat split; auto.
  rewrite !length_app. lia.
Qed.

Lemma digit_or_comma_lower c :
  digit_or_comma (lower_char c) = digit_or_comma c.
Proof. by_cases_on c. Qed.

Lemma is_dot_lower c : is_dot (lower_char c) = is_dot c.
Proof. by_cases_on c. Qed.

Lemma forallb_lower p s :
  (forall c, p (lower_char c) = p c) -> forallb p (lower s) = forallb p s.
Proof.
  intros Hp. induction s as [|c s IH]; simpl; auto.
  now rewrite Hp, IH.
Qed.

(** Lowercasing does not make a numeric token out of something else. *)
Lemma number_shape_lower t : number_shape (lower t) -> number_shape t.
Proof.
  intros (dc & frac & E & Hdc & Hlen & Hfrac).
  unfold lower in E.
  apply map_eq_app in E as (dc' & frac' & -> & <- & <-).
  exists dc', frac'. split; [reflexivity|].
  fold (lower dc') in Hdc.
  rewrite forallb_lower in Hdc by apply digit_or_comma_lower.
  rewrite length_map in Hlen. repeat split; auto.
  destruct Hfrac as [Hnil | (d & ds & E & Hd & Hds & Hl)].
  - left. now destruct frac'.
  - right. destruct frac' as [|d' ds']; [discriminate|].
    simpl in E. injection E as <- <-.
    rewrite is_dot_lower in Hd. fold (lower ds') in Hds.
    rewrite forallb_lower in Hds by apply is_digit_lower.
    rewrite length_map in Hl. exists d', ds'. auto.
Qed.

Lemma at_end_no_newline tail :
  at_end tail = true -> forallb any_char tail = true -> tail = [].
Proof.
  destruct tail as [|c [|d tail]]; simpl; auto; try discriminate.
  unfold any_char. intros ->. discriminate.
Qed.

(** On a line without newline the item pattern matches whenever the total
    pattern is found in the lowercased line: the [else] of line 230 never
    finds a total. *)
Lemma no_total_after_item line :
  forallb any_char line = true ->
  re_match item_re line = None ->
  re_search total_re (lower line) = None.
Proof.
  intros Hany Hitem.
  destruct (re_search total_re (lower line)) as [m|] eqn:Htot; auto.
  exfalso.
  apply total_re_inv in Htot as (pre & tok & tail & E & Hlen & Hn & Hend & _).
  assert (Hlow : forallb any_char (lower line) = true).
  { rewrite forallb_lower; auto.
    intros c. unfold any_char. now rewrite is_newline_lower. }
  rewrite E, !forallb_app in Hlow.
  apply andb_true_iff in Hlow as [Hpre Hlow].
  apply andb_true_iff in Hlow as [_ Htail].
  apply at_end_no_newline in Hend as ->; auto.
  rewrite app_nil_r in E. unfold lower in E.
  apply map_eq_app in E as (pre' & tok' & -> & Epre & Etok).
  apply (@item_re_complete pre' tok'); auto.
  - rewrite <- Epre, length_map in Hlen. exact Hlen.
  - rewrite forallb_app in Hany. now apply andb_true_iff in Hany as [? _].
  - apply number_shape_lower. unfold lower. now rewrite Etok.
Qed.

End PatternFacts.

(* ================================================================= *)
(** ** [float] on a captured price token *)

Module FloatFacts.

Import PyStr Re PyFloat App Spec StrFacts.

Lemma digit_not_comma c : is_digit c = true -> is_comma c = false.
Proof. by_cases_on c. Qed.

Lemma dot_not_comma c : is_dot c = true -> is_comma c = false.
Proof. by_cases_on c. Qed.

Lemma dot_not_digit c : is_dot c = true -> is_digit c = false.
Proof. by_cases_on c. Qed.

Lemma take_digits_all ds :
  forallb is_digit ds = true -> take_digits ds = (ds, []).
Proof.
  induction ds as [|c ds IH]; simpl; auto.
  intros H. apply andb_true_iff in H as [Hc H].
  now rewrite Hc, IH.
Qed.

Lemma take_digits_stop ds d rest :
  forallb is_digit ds = true -> is_digit d = false ->
  take_digits (ds ++ d :: rest) = (ds, d :: rest).
Proof.
  intros H Hd. induction ds as [|c ds IH]; simpl.
  - now rewrite Hd.
  - simpl in H. apply andb_true_iff in H as [Hc H].
    now rewrite Hc, IH.
Qed.

Lemma remove_commas_digits ds :
  forallb is_digit ds = true -> remove_commas ds = ds.
Proof.
  induction ds as [|c ds IH]; simpl; auto.
  intros H. apply andb_true_iff in H as [Hc H].
  fold (is_comma c). rewrite (digit_not_comma _ Hc). simpl.
  fold (remove_commas ds). now rewrite IH.
Qed.

Lemma remove_commas_leaves_digits dc :
  forallb digit_or_comma dc = true ->
  forallb is_digit (remove_commas dc) = true.
Proof.
  induction dc as [|c dc IH]; simpl; auto.
  intros H. apply andb_true_iff in H as [Hc H].
  fold (is_comma c). unfold digit_or_comma in Hc.
  destruct (is_comma c); simpl; auto.
  rewrite orb_false_r in Hc. rewrite Hc. simpl. auto.
Qed.

(** Without its commas a price token is a plain numeral, or nothing at
    all when it was made of commas only. *)
Lemma remove_commas_token tok :
  number_shape tok ->
  exists ds frac,
    remove_commas tok = ds ++ frac /\ forallb is_digit ds = true /\
    (frac = [] \/
     exists d fs,
       frac = d :: fs /\ is_dot d = true /\ forallb is_digit fs = true /\
       1 <= length fs).
Proof.
  intros (dc & frac & -> & Hdc & _ & Hfrac).
  exists (remove_commas dc), frac.
  unfold remove_commas at 1. rewrite filter_app.
  fold (remove_commas dc) (remove_commas frac).
  split; [|split; [now apply remove_commas_leaves_digits|]].
  - f_equal. destruct Hfrac as [-> | (d & fs & -> & Hd & Hfs & _)]; auto.
    unfold remove_commas. simpl. fold (is_comma d).
    rewrite (dot_not_comma _ Hd). simpl.
    fold (remove_commas fs). now rewrite remove_commas_digits.
  - destruct Hfrac as [-> | (d & fs & -> & Hd & Hfs & Hl & _)]; auto.
    right. exists d, fs. auto.
Qed.

(** [float] raises on a price token exactly when nothing is left of it
    once the commas are gone. *)
Lemma py_float_token tok :
  number_shape tok ->
  (remove_commas tok = [] /\ py_float (remove_commas tok) = inl ValueError)
  \/ (remove_commas tok <> [] /\
      exists p, py_float (remove_commas tok) = inr p).
Proof.
  intros H.
  apply remove_commas_token in H as (ds & frac & -> & Hds & Hfrac).
  unfold py_float.
  destruct Hfrac as [-> | (d & fs & -> & Hd & Hfs & Hl)].
  - rewrite app_nil_r, take_digits_all by exact Hds.
    destruct ds as [|c ds]; [left | right]; auto.
    split; [discriminate | eauto].
  - rewrite take_digits_stop by auto using dot_not_digit.
    right. split; [now destruct ds|].
    unfold is_dot in Hd. rewrite Hd, Hfs. simpl.
    destruct (Nat.eqb_spec (length ds + length fs) 0) as [E | _];
      [lia | simpl; eauto].
Qed.

End FloatFacts.

(* ================================================================= *)
(** ** The parsing loop *)

Module LoopFacts.

Import PyStr Re PyFloat App Tip Spec ReFacts StrFacts PatternFacts FloatFacts.

Lemma sum_prices_add its i :
  sum_prices (its ++ [i]) = fadd (sum_prices its) (price i).
Proof. unfold sum_prices. now rewrite fold_left_app. Qed.

Lemma forallb_snoc {A} (p : A -> bool) l x :
  forallb p (l ++ [x]) = forallb p l && p x.
Proof. rewrite forallb_app. simpl. now rewrite andb_true_r. Qed.

Lemma existsb_none {A} (f : A -> bool) l :
  Forall (fun x => f x = false) l -> existsb f l = false.
Proof. induction 1 as [|x l Hx _ IH]; simpl; auto. now rewrite Hx. Qed.


(** On a line without newline, one turn of the loop does nothing, adds an
    item, or prints a message that is not one of the total branch. *)
Lemma process_line_clean st raw :
  forallb any_char raw = true ->
  process_line st raw = inr st \/
  (exists nm p, price_ok p = true /\
                process_line st raw = inr (add_item nm p st)) \/
  (exists e, total_event e = false /\
             process_line st raw = inr (print e st)).
Proof.
  intros Hraw. apply forallb_strip in Hraw.
  unfold process_line.
  destruct (skipped (strip raw)); [auto|].
  destruct (re_match item_re (strip raw)) as [m|] eqn:Hm.
  - unfold item_branch.
    destruct (py_float (remove_commas (group 2 m))) as [[]|p]; simpl.
    + right. right. eexists. split; [|reflexivity]. reflexivity.
    + destruct (price_ok p) eqn:E; eauto 8.
  - unfold total_branch.
    rewrite (no_total_after_item _ Hraw Hm). simpl.
    right. right. eexists. split; [|reflexivity]. reflexivity.
Qed.

Lemma total_line_detected_never line :
  forallb any_char line = true -> total_line_detected line = false.
Proof.
  intros H. unfold total_line_detected.
  destruct (re_match item_re line) eqn:Hm; simpl.
  - now rewrite andb_false_r.
  - rewrite (no_total_after_item _ H Hm). apply andb_false_r.
Qed.

Section Invariant.

Variable P : state -> Prop.
Hypothesis P_add :
  forall st nm p, price_ok p = true -> P st -> P (add_item nm p st).
Hypothesis P_print :
  forall st e, total_event e = false -> P st -> P (print e st).

(** A property kept by adding an item and by printing outside the
    total branch holds after the loop over newline-free lines. *)
Lemma process_lines_invariant lines : forall st,
  Forall (fun l => forallb any_char l = true) lines ->
  P st ->
  exists st', process_lines st lines = inr st' /\ P st'.
Proof.
  induction lines as [|l ls IH]; intros st Hls Hst; simpl.
  - eauto.
  - inversion Hls as [|? ? Hl Hls']; subst.
    destruct (process_line_clean st l Hl)
      as [E | [(nm & p & Hp & E) | (e & He & E)]];
      rewrite E; simpl; apply IH; auto.
Qed.

Lemma parse_invariant extracted_text :
  P init -> exists st, parse extracted_text = inr st /\ P st.
Proof.
  intros H. unfold parse. apply process_lines_invariant; auto.
  apply split_lines_no_newline.
Qed.

End Invariant.

(** After the loop: the total is the sum of the prices, every price
    passed the test of line 222, and nothing of the total branch was
    printed. *)
Lemma parse_result extracted_text :
  exists st,
    parse extracted_text = inr st /\
    total st = sum_prices (items st) /\
    forallb (fun i => price_ok (price i)) (items st) = true /\
    forallb (fun e => negb (total_event e)) (printed st) = true.
Proof.
  apply parse_invariant with
    (P := fun st =>
            total st = sum_prices (items st) /\
            forallb (fun i => price_ok (price i)) (items st) = true /\
            forallb (fun e => negb (total_event e)) (printed st) = true).
  - intros st nm p Hp (Ht & Hi & He). simpl.
    rewrite sum_prices_add, forallb_snoc, Ht, Hi. simpl. auto.
  - intros st e He (Ht & Hi & Hpr). simpl.
    rewrite forallb_snoc, Hpr, He. auto.
  - simpl. auto.
Qed.

Lemma remove_commas_nil s :
  remove_commas s = [] <-> forallb is_comma s = true.
Proof.
  induction s as [|c s IH]; simpl; [tauto|].
  fold (is_comma c). destruct (is_comma c); simpl; [exact IH|].
  split; discriminate.
Qed.

End LoopFacts.

(* ================================================================= *)
(** ** The properties of the specification *)

Import PyStr Re PyFloat App Tip Spec.
Import ReFacts StrFacts PatternFacts FloatFacts LoopFacts.

(** C1 (reconciliation rule), evaluated on the code.  With one item of
    1180 followed by the line [Total: 1200], the total that comes out is
    1180: the line holds the excluded word [total] and is skipped before
    any pattern is tried.  Spelled [Balance: 1200], the line is taken by
    the item pattern and counted as a second item, so the total is 2380.
    The rule of lines 238-244 itself would adopt 1200 and refuse 5000 at a
    running total of 1180, had a line ever reached it. *)
Theorem total_line_is_not_adopted :
  (exists st,
      parse (str "Rice 1180" ++ newline :: str "Total: 1200") = inr st /\
      sum_prices (items st) = of_int 1180 /\
      total st = of_int 1180 /\ printed st = []) /\
  (exists st,
      parse (str "Rice 1180" ++ newline :: str "Balance: 1200") = inr st /\
      map name (items st) = [str "Rice"; str "Balance"] /\
      total st = of_int 2380 /\ printed st = []) /\
  total (reconcile (of_int 1200) (set_total (of_int 1180) init))
  = of_int 1200 /\
  total (reconcile (of_int 5000) (set_total (of_int 1180) init))
  = of_int 1180 /\
  of_int 1180 <> of_int 1200.
Proof.
  split; [|split; [|split; [|split]]].
  - eexists. split; [vm_compute; reflexivity|]. vm_compute. auto.
  - eexists. split; [vm_compute; reflexivity|]. vm_compute. auto.
  - vm_compute. reflexivity.
  - vm_compute. reflexivity.
  - vm_compute. discriminate.
Qed.

(** C2: for every OCR text, no line the loop goes through reaches the body
    of [if total_match:], nothing of that branch is printed, and the total
    that comes out is the sum, in order, of the prices of the items. *)
Theorem total_is_sum_of_items (extracted_text : text) :
  existsb total_line_detected (lines_of extracted_text) = false /\
  exists st,
    parse extracted_text = inr st /\
    total st = sum_prices (items st) /\
    forallb (fun e => negb (total_event e)) (printed st) = true.
Proof.
  split.
  - apply existsb_none. unfold lines_of. apply Forall_map.
    eapply Forall_impl; [|apply split_lines_no_newline].
    intros l Hl. apply total_line_detected_never.
    now apply forallb_strip.
  - destruct (parse_result extracted_text) as (st & Hp & Ht & _ & He).
    exists st. auto.
Qed.

(** C3 as stated fails on the line [sum 200000]: it is not skipped, the
    item pattern matches it with the price token [200000], the price is
    out of range, and the loop leaves the state as it was, whereas handing
    the line to the total-line attempt would have set the total to 200000
    and printed two messages. *)
Lemma rejected_item_line_is_not_retried :
  skipped (str "sum 200000") = false /\
  re_match item_re (str "sum 200000")
  = Some [(2, str "200000"); (1, str "sum")] /\
  py_float (remove_commas (str "200000")) = inr (of_int 200000) /\
  price_ok (of_int 200000) = false /\
  process_line init (str "sum 200000") = inr init /\
  fall_through init (str "sum 200000")
  = inr (print (NoItemMatch (str "sum 200000"))
           (print (TotalSet (of_int 200000))
              (set_total (of_int 200000) init))) /\
  process_line init (str "sum 200000")
  <> fall_through init (str "sum 200000").
Proof.
  repeat split; try (vm_compute; reflexivity).
  vm_compute. discriminate.
Qed.

(** C3, amended: on a line that is not skipped and that the item pattern
    matches, the total-line pattern is never tried, and what the loop does
    is fixed by the numeral alone.  When the numeral does not parse, the
    state is the one before with the parse-error message printed, and
    nothing else: no item, the same total, the same breakdown.  When it
    parses to a price outside the range, the state is exactly the one
    before: no item, no change, nothing printed.  When the price is in the
    range the item is added. *)
Theorem rejected_item_line_changes_nothing
        (st : state) (raw : text) (m : caps) :
  skipped (strip raw) = false ->
  re_match item_re (strip raw) = Some m ->
  match py_float (remove_commas (group 2 m)) with
  | inl _ =>
      process_line st raw
      = inr {| items := items st; total := total st;
               category_totals := category_totals st;
               printed := printed st
                          ++ [PriceParseError (strip raw)
                                              (remove_commas (group 2 m))] |}
  | inr p =>
      if price_ok p
      then process_line st raw = inr (add_item (strip (group 1 m)) p st)
      else process_line st raw = inr st
  end.
Proof.
  intros Hs Hm. unfold process_line. rewrite Hs, Hm.
  unfold item_branch.
  destruct (py_float (remove_commas (group 2 m))) as [[]|p]; simpl.
  - reflexivity.
  - destruct (price_ok p); reflexivity.
Qed.

Lemma rejected_item_line_changes_nothing_witness :
  process_line init (str "sum 200000") = inr init.
Proof.
  pose proof (@rejected_item_line_changes_nothing
                init (str "sum 200000") [(2, str "200000"); (1, str "sum")])
    as H.
  assert (Hs : skipped (strip (str "sum 200000")) = false)
    by (vm_compute; reflexivity).
  assert (Hm : re_match item_re (strip (str "sum 200000"))
               = Some [(2, str "200000"); (1, str "sum")])
    by (vm_compute; reflexivity).
  specialize (H Hs Hm). vm_compute in H. vm_compute. exact H.
Defined.

(** C4: a line whose lowercased text contains a word of the stoplist is
    skipped: the loop returns the state it was given, so no item comes
    from such a line, whatever it ends with. *)
Theorem stoplist_line_is_noise (st : state) (raw : text) (w : string) :
  In w exclude_words ->
  contains (str w) (lower raw) = true ->
  process_line st raw = inr st.
Proof.
  intros Hw Hc.
  assert (Hword : str w <> [] /\
                  forallb (fun c => negb (is_space c)) (str w) = true).
  { assert (Hall : forallb
                     (fun w => negb (is_empty (str w)) &&
                               forallb (fun c => negb (is_space c)) (str w))
                     exclude_words = true) by (vm_compute; reflexivity).
    rewrite forallb_forall in Hall. specialize (Hall w Hw).
    apply andb_true_iff in Hall as [Hne Hsp]. split; auto.
    intros E. rewrite E in Hne. discriminate. }
  destruct Hword as [Hne Hsp].
  unfold process_line.
  assert (Hskip : skipped (strip raw) = true).
  { unfold skipped. apply orb_true_iff. right.
    unfold any_in. apply existsb_exists. exists w. split; auto.
    rewrite lower_strip. now apply contains_strip. }
  now rewrite Hskip.
Qed.

Lemma stoplist_line_is_noise_witness :
  process_line init (str "Total: 75.00") = inr init.
Proof.
  apply (@stoplist_line_is_noise init (str "Total: 75.00") "total"%string).
  - simpl. auto.
  - vm_compute. reflexivity.
Defined.

Import Reading.



Lemma keyword_hit_any_in (name : text) (row : string * list string) :
  keyword_hit name row = any_in (snd row) (lower name).
Proof. reflexivity. Qed.

(** C6: [categorize] returns, for every name, the first category of the
    priority table one of whose keywords occurs in the lowercased name, and
    [Other] when there is none; the result is one of the nine categories
    and does not depend on the case of the name.  A name with keywords of
    two categories gets the one checked first. *)
Theorem categorize_first_match (name : text) :
  categorize name = first_category name /\
  In (categorize name) categories /\
  categorize (lower name) = categorize name /\
  categorize (str "Chocolate Milk") = "Essentials"%string /\
  categorize (str "Thank you") = "Other"%string.
Proof.
  split; [|split; [|split; [|split]]].
  - unfold first_category, keyword_table. cbn [find].
    rewrite !keyword_hit_any_in. cbn [fst snd].
    unfold categorize. cbv zeta.
    repeat match goal with
           | |- context [if any_in ?ks ?n then _ else _] =>
               destruct (any_in ks n); [reflexivity|]
           end.
    reflexivity.
  - unfold categorize, categories. cbv zeta.
    repeat match goal with
           | |- context [if any_in ?ks ?n then _ else _] =>
               destruct (any_in ks n); [simpl; tauto|]
           end.
    simpl; tauto.
  - unfold categorize. now rewrite lower_idem.
  - vm_compute. reflexivity.
  - vm_compute. reflexivity.
Qed.

(** C7: the savings tip is the tip of the first rule, in the order of the
    specification, whose condition holds on the items, the breakdown and
    the total, and the balanced-receipt tip when none holds; the
    high-spend tip carries the total written with two decimals. *)
Theorem savings_tip_first_rule (its : list item) (totals : dict) (t : float) :
  savings_tip its totals t = first_rule (tip_rules its totals t) balanced /\
  savings_tip [Item (str "Rice") (of_ratio 30005 10)]
              [("Essentials"%string, of_ratio 30005 10)] (of_ratio 30005 10)
  = (high_spend_prefix ++ "3000.50" ++ high_spend_suffix)%string.
Proof.
  split.
  - unfold savings_tip, first_rule, tip_rules, high_spend. cbv zeta.
    cbn [find fst snd].
    repeat match goal with
           | |- (if ?b then _ else _) = _ => destruct b; [reflexivity|]
           end.
    reflexivity.
  - vm_compute. reflexivity.
Qed.

(** C8: whatever the text, no [ValueError] escapes the loop, and the
    request ends with a receipt, never with the error of line 289.  When no
    item was parsed the total is 0 and the tip is the no-data tip, as on
    the text made of the lines [GST No: 12345] and [Thank you]. *)
Theorem extraction_never_fails (extracted_text : text) (w : world) :
  (exists st, parse extracted_text = inr st) /\
  (exists r,
      fst (upload_image extracted_text w) = Ok200 r /\
      match r_items r with
      | [] => r_total r = zero /\ savings_tip_of r = no_data
      | _ :: _ => True
      end) /\
  (exists r,
      fst (upload_image (str "GST No: 12345" ++ newline :: str "Thank you") w)
      = Ok200 r /\
      r_items r = [] /\ r_total r = zero /\ category_breakdown r = [] /\
      savings_tip_of r = no_data).
Proof.
  destruct (parse_result extracted_text) as (st & Hp & Ht & _ & _).
  split; [eauto|]. split.
  - unfold upload_image. rewrite Hp. simpl.
    eexists. split; [reflexivity|]. simpl.
    destruct (items st) as [|i its] eqn:E; auto.
    rewrite Ht. split; reflexivity.
  - unfold upload_image.
    assert (E : parse (str "GST No: 12345" ++ newline :: str "Thank you")
                = inr (print (NoItemMatch (str "Thank you")) init))
      by (vm_compute; reflexivity).
    rewrite E. simpl. eexists. split; [reflexivity|]. simpl. auto.
Qed.

(** C9: two runs on the same text, in whatever state of the clock, of the
    image store and of [results.json], give receipts with the same items,
    the same total, the same breakdown and the same tip; in particular the
    second of two runs in a row repeats the first. *)
Theorem extraction_is_repeatable (extracted_text : text) (w1 w2 : world) :
  (exists r1 r2,
      fst (upload_image extracted_text w1) = Ok200 r1 /\
      fst (upload_image extracted_text w2) = Ok200 r2 /\
      r_items r1 = r_items r2 /\ r_total r1 = r_total r2 /\
      category_breakdown r1 = category_breakdown r2 /\
      savings_tip_of r1 = savings_tip_of r2) /\
  (exists r,
      fst (upload_image extracted_text w1) = Ok200 r /\
      fst (upload_image extracted_text
                        (snd (upload_image extracted_text w1))) = Ok200 r /\
      results_json (snd (upload_image extracted_text
                           (snd (upload_image extracted_text w1))))
      = results_json w1 ++ [r; r]).
Proof.
  destruct (parse_result extracted_text) as (st & Hp & _).
  unfold upload_image. rewrite Hp. simpl. split.
  - do 2 eexists. repeat split.
  - eexists. split; [reflexivity|]. split; [reflexivity|].
    now rewrite <- app_assoc.
Qed.

(** C10 as stated fails on the line [a,]: the item pattern matches it with
    the price token [,], nothing is left of the token without its comma,
    [float] raises on the empty text and the handler of line 227 runs. *)
Lemma comma_only_price_reaches_handler :
  skipped (str "a,") = false /\
  re_match item_re (str "a,") = Some [(2, str ","); (1, str "a")] /\
  remove_commas (str ",") = [] /\
  py_float [] = inl ValueError /\
  process_line init (str "a,")
  = inr (print (PriceParseError (str "a,") []) init).
Proof. repeat split; vm_compute; reflexivity. Qed.

(** C10, amended: on a line matched by the item pattern, the price token
    without its commas parses whenever the token has a character other than
    a comma, and [float] raises when the token is made of commas only.  In
    the loop the handler of line 227 runs, printing its message and
    changing nothing else, exactly on the lines that are not skipped, that
    the item pattern matches and whose price token is made of commas only;
    on a matched line with another token nothing is printed, and on every
    other line whatever is printed is not the message of the handler. *)
Theorem price_parse_fails_only_on_commas (st : state) (raw line : text) :
  match re_match item_re line with
  | Some m =>
      if forallb is_comma (group 2 m)
      then py_float (remove_commas (group 2 m)) = inl ValueError
      else exists p, py_float (remove_commas (group 2 m)) = inr p
  | None => True
  end /\
  match (if skipped (strip raw) then None
         else re_match item_re (strip raw)) with
  | Some m =>
      if forallb is_comma (group 2 m)
      then process_line st raw
           = inr (print (PriceParseError (strip raw)
                                         (remove_commas (group 2 m))) st)
      else exists st',
          process_line st raw = inr st' /\ printed st' = printed st
  | None =>
      exists st' evs,
        process_line st raw = inr st' /\
        printed st' = printed st ++ evs /\
        Forall (fun e => match e with
                         | PriceParseError _ _ => False
                         | _ => True
                         end) evs
  end.
Proof.
  assert (Token : forall l m,
             re_match item_re l = Some m ->
             if forallb is_comma (group 2 m)
             then py_float (remove_commas (group 2 m)) = inl ValueError
             else exists p, py_float (remove_commas (group 2 m)) = inr p).
  { intros l m Hm.
    apply item_re_inv in Hm as (g1 & mid & tok & tail & _ & _ & Hn & _ & ->).
    cbn [group Nat.eqb].
    destruct (py_float_token Hn) as [[E Hf] | [E Hf]].
    - apply remove_commas_nil in E. now rewrite E.
    - destruct (forallb is_comma tok) eqn:Hc; auto.
      apply remove_commas_nil in Hc. contradiction. }
  split.
  - destruct (re_match item_re line) as [m|] eqn:Hm; [|exact I].
    exact (Token _ _ Hm).
  - unfold process_line.
    destruct (skipped (strip raw)).
    { exists st, []. rewrite app_nil_r. auto. }
    destruct (re_match item_re (strip raw)) as [m|] eqn:Hm.
    + pose proof (Token _ _ Hm) as Hf. unfold item_branch.
      destruct (forallb is_comma (group 2 m)).
      * rewrite Hf. reflexivity.
      * destruct Hf as [p Hf]. rewrite Hf. simpl.
        destruct (price_ok p); eexists; split; reflexivity.
    + unfold total_branch.
      destruct (re_search total_re (lower (strip raw))) as [tm|]; simpl.
      * destruct (py_float (remove_commas (group 1 tm))) as [[]|t]; simpl.
        -- eexists. exists [TotalParseError (strip raw);
                            NoItemMatch (strip raw)].
           split; [reflexivity|]. simpl. rewrite <- app_assoc.
           split; [reflexivity|]. repeat constructor.
        -- unfold reconcile.
           destruct (fltb (of_int 0) t &&
                     fltb (fabs (fsub t (total st))) (of_int 100)).
           ++ eexists. exists [TotalOverridden t; NoItemMatch (strip raw)].
              split; [reflexivity|]. simpl. rewrite <- app_assoc.
              split; [reflexivity|]. repeat constructor.
           ++ destruct (feqb (total st) (of_int 0) && fltb (of_int 0) t).
              ** eexists. exists [TotalSet t; NoItemMatch (strip raw)].
                 split; [reflexivity|]. simpl. rewrite <- app_assoc.
                 split; [reflexivity|]. repeat constructor.
              ** eexists. exists [NoItemMatch (strip raw)].
                 split; [reflexivity|]. simpl.
                 split; [reflexivity|]. repeat constructor.
      * eexists. exists [NoItemMatch (strip raw)].
        split; [reflexivity|]. simpl.
        split; [reflexivity|]. repeat constructor.
Qed.

(* ================================================================= *)
(** ** Further properties of the code *)

Module DictFacts.

Import PyFloat App.

Lemma dict_get_set_same d k v dflt : dict_get (dict_set d k v) k dflt = v.
Proof.
  induction d as [|[k' w] d IH]; simpl.
  - now rewrite String.eqb_refl.
  - destruct (String.eqb_spec k' k) as [-> | Hne]; simpl.
    + now rewrite String.eqb_refl.
    + apply String.eqb_neq in Hne. now rewrite Hne.
Qed.

Lemma dict_get_set_other d k v k' dflt :
  k <> k' -> dict_get (dict_set d k v) k' dflt = dict_get d k' dflt.
Proof.
  intros Hne. induction d as [|[k0 w] d IH]; simpl.
  - apply String.eqb_neq in Hne. now rewrite Hne.
  - destruct (String.eqb_spec k0 k) as [-> | H0]; simpl.
    + apply String.eqb_neq in Hne. now rewrite Hne.
    + destruct (String.eqb k0 k'); auto.
Qed.

Lemma dict_get_absent d k dflt :
  ~ In k (map fst d) -> dict_get d k dflt = dflt.
Proof.
  induction d as [|[k0 w] d IH]; simpl; auto.
  intros H. destruct (String.eqb_spec k0 k) as [-> | _]; [tauto|].
  apply IH. tauto.
Qed.

Lemma dict_set_keys d k v k' :
  In k' (map fst (dict_set d k v)) <-> k' = k \/ In k' (map fst d).
Proof.
  induction d as [|[k0 w] d IH]; simpl.
  - intuition.
  - destruct (String.eqb_spec k0 k) as [-> | H0]; simpl.
    + intuition.
    + rewrite IH. intuition.
Qed.

Lemma dict_set_nodup d k v :
  NoDup (map fst d) -> NoDup (map fst (dict_set d k v)).
Proof.
  induction d as [|[k0 w] d IH]; simpl; intros H.
  - repeat constructor. simpl. tauto.
  - inversion H as [|? ? Hin Hd]; subst.
    destruct (String.eqb_spec k0 k) as [-> | H0]; simpl.
    + now constructor.
    + constructor; auto.
      rewrite dict_set_keys. intros [E | E]; [congruence | tauto].
Qed.

End DictFacts.

Module NameFacts.

Import PyStr Re PyFloat App Tip Spec Pages.
Import ReFacts StrFacts PatternFacts FloatFacts LoopFacts.

Lemma lstrip_head s c r : lstrip s = c :: r -> is_space c = false.
Proof.
  induction s as [|x s IH]; simpl; [discriminate|].
  destruct (is_space x) eqn:E; auto.
  intros H. injection H as <- _. exact E.
Qed.

Lemma lstrip_nonspace c r : is_space c = false -> lstrip (c :: r) = c :: r.
Proof. intros H. simpl. now rewrite H. Qed.

Lemma lstrip_idem s : lstrip (lstrip s) = lstrip s.
Proof.
  destruct (lstrip s) as [|c r] eqn:E; auto.
  apply lstrip_nonspace. eapply lstrip_head; eauto.
Qed.

Lemma rstrip_cons c r : is_space c = false -> rstrip (c :: r) = c :: rstrip r.
Proof. intros H. apply (rstrip_app_nonspace [] c r H). Qed.

Lemma rstrip_idem s : rstrip (rstrip s) = rstrip s.
Proof. unfold rstrip. now rewrite rev_involutive, lstrip_idem. Qed.

(** A stripped text is empty or begins with a character that is not
    whitespace. *)
Lemma strip_head s c r : strip s = c :: r -> is_space c = false.
Proof.
  unfold strip. destruct (lstrip s) as [|x t] eqn:E.
  - discriminate.
  - pose proof (lstrip_head _ E) as Hx.
    rewrite rstrip_cons by exact Hx. intros H. now injection H as <- _.
Qed.

Lemma strip_idem s : strip (strip s) = strip s.
Proof.
  unfold strip. destruct (lstrip s) as [|x t] eqn:E; auto.
  pose proof (lstrip_head _ E) as Hx.
  rewrite rstrip_cons by exact Hx.
  rewrite lstrip_nonspace by exact Hx.
  rewrite <- rstrip_cons by exact Hx. apply rstrip_idem.
Qed.

Lemma lstrip_suffix s : exists a, s = a ++ lstrip s.
Proof.
  induction s as [|c s [a IH]]; simpl.
  - now exists [].
  - destruct (is_space c).
    + exists (c :: a). simpl. now rewrite <- IH.
    + now exists [].
Qed.

Lemma rstrip_prefix s : exists b, s = rstrip s ++ b.
Proof.
  unfold rstrip. destruct (lstrip_suffix (rev s)) as [a E].
  exists (rev a). rewrite <- rev_app_distr, <- E. now rewrite rev_involutive.
Qed.

(** A stripped text sits inside the text it was made from. *)
Lemma strip_inside s : exists a b, s = a ++ strip s ++ b.
Proof.
  unfold strip. destruct (lstrip_suffix s) as [a Ea].
  destruct (rstrip_prefix (lstrip s)) as [b Eb].
  exists a, b. now rewrite <- Eb.
Qed.

(** The name of an item: not empty, stripped, inside the line. *)
Lemma yields_item_name line nm p :
  strip line = line -> yields_item line nm p ->
  nm <> [] /\ strip nm = nm /\ exists a b, line = a ++ nm ++ b.
Proof.
  intros Hline (Hs & m & Hm & -> & _ & _).
  apply item_re_inv in Hm as (g1 & mid & tok & tail & E & Hlen & _ & _ & ->).
  cbn [group Nat.eqb].
  split; [|split].
  - destruct g1 as [|c g1]; [simpl in Hlen; lia|].
    assert (Hc : is_space c = false).
    { apply (@strip_head line c (g1 ++ mid ++ tok ++ tail)).
      rewrite Hline. exact E. }
    unfold strip. rewrite lstrip_nonspace, rstrip_cons by exact Hc.
    discriminate.
  - apply strip_idem.
  - destruct (strip_inside g1) as (a & b & Eg).
    exists a, (b ++ mid ++ tok ++ tail).
    rewrite E. rewrite Eg at 1. now rewrite <- !app_assoc.
Qed.

Lemma any_in_false ks s w :
  any_in ks s = false -> In w ks -> contains (str w) s = false.
Proof.
  unfold any_in. intros H Hw.
  destruct (contains (str w) s) eqn:E; auto.
  assert (existsb (fun k => contains (str k) s) ks = true)
    by (apply existsb_exists; eauto).
  congruence.
Qed.

Lemma contains_inside w a s b :
  contains w s = true -> contains w (a ++ s ++ b) = true.
Proof.
  rewrite !contains_spec. intros (x & y & ->).
  exists (a ++ x), (y ++ b). now rewrite <- !app_assoc.
Qed.

(** No word of the stoplist is in the lowercased name of an item. *)
Lemma yields_item_no_stopword line nm p w :
  strip line = line -> yields_item line nm p -> In w exclude_words ->
  contains (str w) (lower nm) = false.
Proof.
  intros Hline Hy Hw.
  destruct (yields_item_name Hline Hy) as (_ & _ & a & b & E).
  destruct Hy as (Hs & _).
  unfold skipped in Hs. apply orb_false_iff in Hs as [_ Hs].
  pose proof (@any_in_false _ _ _ Hs Hw) as Hno.
  destruct (contains (str w) (lower nm)) eqn:Hc; auto.
  rewrite E in Hno. unfold lower in Hno. rewrite !map_app in Hno.
  rewrite contains_inside in Hno; [discriminate | exact Hc].
Qed.

Lemma take_digits_token ds frac :
  forallb is_digit ds = true ->
  (frac = [] \/ exists d fs, frac = d :: fs /\ is_dot d = true) ->
  take_digits (ds ++ frac) = (ds, frac).
Proof.
  intros Hds [-> | (d & fs & -> & Hd)].
  - rewrite app_nil_r. now apply take_digits_all.
  - apply take_digits_stop; auto using dot_not_digit.
Qed.

(** The price of an item is the double nearest to a decimal numeral with
    at most two digits after the point. *)
Lemma yields_item_price line nm p :
  yields_item line nm p ->
  exists n k, k <= 2 /\ p = of_ratio n (pow10 k).
Proof.
  intros (_ & m & Hm & _ & Hf & _).
  apply item_re_inv in Hm as (g1 & mid & tok & tail & _ & _ & Hn & _ & ->).
  cbn [group Nat.eqb] in Hf.
  destruct Hn as (dc & frac & -> & Hdc & _ & Hfrac).
  assert (E : remove_commas (dc ++ frac) = remove_commas dc ++ frac).
  { unfold remove_commas at 1. rewrite filter_app.
    fold (remove_commas dc) (remove_commas frac). f_equal.
    destruct Hfrac as [-> | (d & fs & -> & Hd & Hfs & _)]; auto.
    unfold remove_commas. simpl. fold (is_comma d).
    rewrite (dot_not_comma _ Hd). simpl.
    fold (remove_commas fs). now rewrite remove_commas_digits. }
  rewrite E in Hf. unfold py_float in Hf.
  rewrite take_digits_token in Hf.
  - destruct Hfrac as [-> | (d & fs & -> & Hd & Hfs & _ & Hhi)].
    + destruct (remove_commas dc); [discriminate|].
      injection Hf as <-. exists (digits_value (a :: t)), 0. auto.
    + destruct (is_char 46 d && forallb is_digit fs &&
                negb (Nat.eqb (length (remove_commas dc) + length fs) 0));
        [|discriminate].
      injection Hf as <-. eauto.
  - now apply remove_commas_leaves_digits.
  - destruct Hfrac as [-> | (d & fs & -> & Hd & _)]; eauto.
Qed.

End NameFacts.

Module ItemFacts.

Import PyStr Re PyFloat App Tip Spec Pages.
Import ReFacts StrFacts PatternFacts FloatFacts LoopFacts DictFacts NameFacts.

(** One turn of the loop on a line without newline, with the line that
    gave the item when one was added. *)
Lemma process_line_yield st raw :
  forallb any_char raw = true ->
  process_line st raw = inr st \/
  (exists nm p, yields_item (strip raw) nm p /\
                process_line st raw = inr (add_item nm p st)) \/
  (exists e, total_event e = false /\
             process_line st raw = inr (print e st)).
Proof.
  intros Hraw. apply forallb_strip in Hraw.
  unfold process_line.
  destruct (skipped (strip raw)) eqn:Hs; [auto|].
  destruct (re_match item_re (strip raw)) as [m|] eqn:Hm.
  - unfold item_branch.
    destruct (py_float (remove_commas (group 2 m))) as [[]|p] eqn:Hf; simpl.
    + right. right. eexists. split; [|reflexivity]. reflexivity.
    + destruct (price_ok p) eqn:E; auto.
      right. left. exists (strip (group 1 m)), p. split; auto.
      split; auto. exists m. auto.
  - unfold total_branch.
    rewrite (no_total_after_item _ Hraw Hm). simpl.
    right. right. eexists. split; [|reflexivity]. reflexivity.
Qed.

Section ItemInvariant.

Variable lines0 : list text.
Variable P : state -> Prop.
Hypothesis P_add :
  forall st line nm p,
    In line lines0 -> yields_item line nm p -> P st -> P (add_item nm p st).
Hypothesis P_print : forall st e, P st -> P (print e st).

Lemma process_lines_yield lines : forall st,
  Forall (fun l => forallb any_char l = true /\ In (strip l) lines0) lines ->
  P st ->
  exists st', process_lines st lines = inr st' /\ P st'.
Proof.
  induction lines as [|l ls IH]; intros st Hls Hst; simpl.
  - eauto.
  - inversion Hls as [|? ? [Hl Hin] Hls']; subst.
    destruct (process_line_yield st l Hl)
      as [E | [(nm & p & Hy & E) | (e & He & E)]];
      rewrite E; simpl; apply IH; eauto.
Qed.

End ItemInvariant.

(** A property kept when a line of the text gives an item, and by
    printing, holds after the loop. *)
Lemma parse_yield (P : state -> Prop) extracted_text :
  (forall st line nm p,
      In line (lines_of extracted_text) -> yields_item line nm p ->
      P st -> P (add_item nm p st)) ->
  (forall st e, P st -> P (print e st)) ->
  P init -> exists st, parse extracted_text = inr st /\ P st.
Proof.
  intros Hadd Hprint H. unfold parse.
  apply process_lines_yield with (lines0 := lines_of extracted_text); auto.
  unfold lines_of. apply Forall_forall. intros l Hl. split.
  - pose proof (split_lines_no_newline (strip extracted_text)) as Hall.
    rewrite Forall_forall in Hall. now apply Hall.
  - now apply in_map.
Qed.

Lemma lines_of_stripped extracted_text line :
  In line (lines_of extracted_text) -> strip line = line.
Proof.
  unfold lines_of. intros H. apply in_map_iff in H as (l & <- & _).
  apply strip_idem.
Qed.


(** A property of the state after the loop is one of the receipt sent. *)
Lemma upload_image_of_parse (Q : list item -> float -> dict -> Prop)
      extracted_text w :
  (exists st, parse extracted_text = inr st /\
              Q (items st) (total st) (category_totals st)) ->
  exists r, fst (upload_image extracted_text w) = Ok200 r /\
            Q (r_items r) (r_total r) (category_breakdown r) /\
            savings_tip_of r
            = savings_tip (r_items r) (category_breakdown r) (r_total r).
Proof.
  intros (st & Hp & HQ). unfold upload_image. rewrite Hp. simpl.
  eexists. split; [reflexivity|]. simpl. auto.
Qed.

Lemma filter_snoc {A} (f : A -> bool) l x :
  filter f (l ++ [x]) = if f x then filter f l ++ [x] else filter f l.
Proof.
  rewrite filter_app. simpl. destruct (f x); auto using app_nil_r.
Qed.

(** The breakdown after the loop: one key per category met, without
    repetition, each with the sum of the prices of its items. *)
Lemma parse_breakdown extracted_text :
  exists st,
    parse extracted_text = inr st /\
    (NoDup (map fst (category_totals st)) /\
     (forall cat,
         In cat (map fst (category_totals st)) <->
         exists i, In i (items st) /\ categorize (name i) = cat) /\
     (forall cat,
         dict_get (category_totals st) cat zero
         = sum_prices (filter (in_category cat) (items st)))).
Proof.
  apply parse_yield with
    (P := fun st =>
            NoDup (map fst (category_totals st)) /\
            (forall cat,
                In cat (map fst (category_totals st)) <->
                exists i, In i (items st) /\ categorize (name i) = cat) /\
            (forall cat,
                dict_get (category_totals st) cat zero
                = sum_prices (filter (in_category cat) (items st)))).
  - intros st line nm p _ _ (Hnd & Hk & Hv). simpl.
    split; [now apply dict_set_nodup|]. split.
    + intros cat. rewrite dict_set_keys, Hk. split.
      * intros [-> | (i & Hi & Hc)].
        -- exists (Item nm p). split; [apply in_or_app; simpl; auto | auto].
        -- exists i. split; [apply in_or_app; auto | auto].
      * intros (i & Hi & Hc). apply in_app_or in Hi as [Hi | [<- | []]].
        -- right. eauto.
        -- left. now rewrite <- Hc.
    + intros cat. rewrite filter_snoc. unfold in_category at 1. simpl.
      destruct (String.eqb_spec (categorize nm) cat) as [<- | Hne].
      * rewrite dict_get_set_same, sum_prices_add, Hv. reflexivity.
      * rewrite dict_get_set_other by exact Hne. apply Hv.
  - intros st e H. exact H.
  - simpl. split; [constructor|]. split.
    + intros cat. split; [intros [] | intros (i & [] & _)].
    + reflexivity.
Qed.

End ItemFacts.

Import Pages DictFacts NameFacts ItemFacts.

(** X1: in every receipt sent, the keys of the category breakdown are,
    without repetition, exactly the categories of the items; the breakdown
    is empty exactly when there is no item. *)
Theorem breakdown_keys_are_item_categories (extracted_text : text) (w : world) :
  exists r,
    fst (upload_image extracted_text w) = Ok200 r /\
    NoDup (map fst (category_breakdown r)) /\
    (forall cat,
        In cat (map fst (category_breakdown r)) <->
        exists i, In i (r_items r) /\ categorize (name i) = cat) /\
    (category_breakdown r = [] <-> r_items r = []).
Proof.
  destruct (parse_breakdown extracted_text) as (st & Hp & Hnd & Hk & _).
  unfold upload_image. rewrite Hp. simpl.
  eexists. split; [reflexivity|]. simpl. split; auto. split; auto.
  split; intros E.
  - destruct (items st) as [|i its]; auto.
    assert (H : In (categorize (name i)) (map fst (category_totals st))).
    { apply Hk. exists i. simpl. auto. }
    rewrite E in H. destruct H.
  - destruct (category_totals st) as [|[k v] d]; auto.
    assert (H : exists i, In i (items st) /\ categorize (name i) = k).
    { apply Hk. simpl. auto. }
    destruct H as (i & Hi & _). rewrite E in Hi. destruct Hi.
Qed.

(** X2: in every receipt sent, the breakdown gives for each category the
    sum, in order, of the prices of the items of that category, and a
    category without entry has no item. *)
Theorem breakdown_values_are_category_sums
        (extracted_text : text) (w : world) :
  exists r,
    fst (upload_image extracted_text w) = Ok200 r /\
    (forall cat,
        dict_get (category_breakdown r) cat zero
        = sum_prices (filter (in_category cat) (r_items r))) /\
    (forall cat,
        if existsb (String.eqb cat) (map fst (category_breakdown r))
        then True
        else filter (in_category cat) (r_items r) = []).
Proof.
  destruct (parse_breakdown extracted_text) as (st & Hp & _ & Hk & Hv).
  unfold upload_image. rewrite Hp. simpl.
  eexists. split; [reflexivity|]. simpl. split; [exact Hv|].
  intros cat.
  destruct (existsb (String.eqb cat) (map fst (category_totals st))) eqn:E;
    auto.
  destruct (filter (in_category cat) (items st)) as [|i its] eqn:F; auto.
  exfalso.
  assert (Hi : In i (filter (in_category cat) (items st)))
    by (rewrite F; simpl; auto).
  apply filter_In in Hi as [Hi Hc]. unfold in_category in Hc.
  apply String.eqb_eq in Hc.
  assert (Hin : In cat (map fst (category_totals st))).
  { apply Hk. eauto. }
  assert (existsb (String.eqb cat) (map fst (category_totals st)) = true).
  { apply existsb_exists. exists cat. split; auto. apply String.eqb_refl. }
  congruence.
Qed.

(** X3: every item of every receipt comes from a line of the text: one of
    the stripped lines is not skipped, matches the item pattern, and gives
    the name and the price of the item. *)
Theorem items_come_from_lines (extracted_text : text) (w : world) :
  exists r,
    fst (upload_image extracted_text w) = Ok200 r /\
    Forall (fun i =>
              exists line,
                In line (lines_of extracted_text) /\
                yields_item line (name i) (price i))
           (r_items r).
Proof.
  destruct (@parse_yield
              (fun st =>
                 Forall (fun i =>
                           exists line,
                             In line (lines_of extracted_text) /\
                             yields_item line (name i) (price i))
                        (items st))
              extracted_text) as (st & Hp & H).
  - intros st line nm p Hin Hy H. simpl. apply Forall_app. split; auto.
    constructor; [|constructor]. exists line. auto.
  - intros st e H. exact H.
  - constructor.
  - unfold upload_image. rewrite Hp. simpl.
    eexists. split; [reflexivity|]. exact H.
Qed.

Lemma parse_items_forall (Q : item -> Prop) extracted_text :
  (forall line nm p,
      In line (lines_of extracted_text) -> yields_item line nm p ->
      Q (Item nm p)) ->
  forall w,
  exists r,
    fst (upload_image extracted_text w) = Ok200 r /\ Forall Q (r_items r).
Proof.
  intros HQ w.
  destruct (@parse_yield (fun st => Forall Q (items st)) extracted_text)
    as (st & Hp & H).
  - intros st line nm p Hin Hy H. simpl. apply Forall_app. split; auto.
    constructor; [|constructor]. eapply HQ; eauto.
  - intros st e H. exact H.
  - constructor.
  - unfold upload_image. rewrite Hp. simpl.
    eexists. split; [reflexivity|]. exact H.
Qed.

(** X4: the name of every item of every receipt is not empty and has no
    whitespace at either end. *)
Theorem item_names_are_trimmed (extracted_text : text) (w : world) :
  exists r,
    fst (upload_image extracted_text w) = Ok200 r /\
    Forall (fun i => name i <> [] /\ strip (name i) = name i) (r_items r).
Proof.
  apply parse_items_forall. intros line nm p Hin Hy. simpl.
  apply lines_of_stripped in Hin.
  destruct (yields_item_name Hin Hy) as (H1 & H2 & _). auto.
Qed.

(** X5: no word of the stoplist occurs, in any case, in the name of an
    item of a receipt. *)
Theorem item_names_hold_no_stopword (extracted_text : text) (w : world) :
  exists r,
    fst (upload_image extracted_text w) = Ok200 r /\
    Forall (fun i => any_in exclude_words (lower (name i)) = false)
           (r_items r).
Proof.
  apply parse_items_forall. intros line nm p Hin Hy. cbn [name].
  apply lines_of_stripped in Hin.
  unfold any_in. apply existsb_none. apply Forall_forall. intros k Hk.
  eapply yields_item_no_stopword; eauto.
Qed.

(** X6: the price of every item of every receipt is the double nearest to
    a decimal numeral with at most two digits after the point. *)
Theorem item_prices_have_two_decimals (extracted_text : text) (w : world) :
  exists r,
    fst (upload_image extracted_text w) = Ok200 r /\
    Forall (fun i => exists n k, k <= 2 /\ price i = of_ratio n (pow10 k))
           (r_items r).
Proof.
  apply parse_items_forall. intros line nm p Hin Hy. simpl.
  eapply yields_item_price; eauto.
Qed.

Lemma other_tips_differ_from_electronics (t : float) :
  no_data <> electronics /\ lots_of_snacks <> electronics /\
  no_essentials <> electronics /\ excellent <> electronics /\
  high_spend t <> electronics /\ balanced <> electronics.
Proof.
  unfold no_data, electronics, lots_of_snacks, no_essentials, excellent,
    high_spend, high_spend_prefix, balanced.
  repeat split; simpl; discriminate.
Qed.

(** X7: a receipt without any item of the category Electronics never gets
    the electronics tip: the missing key of the breakdown counts as 0.0,
    which is not above 1500. *)
Theorem electronics_tip_needs_electronics_item
        (extracted_text : text) (w : world) :
  exists r,
    fst (upload_image extracted_text w) = Ok200 r /\
    if existsb (in_category "Electronics") (r_items r) then True
    else savings_tip_of r <> electronics.
Proof.
  destruct (parse_breakdown extracted_text) as (st & Hp & _ & Hk & _).
  unfold upload_image. rewrite Hp. simpl.
  eexists. split; [reflexivity|]. simpl.
  destruct (existsb (in_category "Electronics") (items st)) eqn:E; auto.
  assert (Hget : dict_get (category_totals st) "Electronics" zero = zero).
  { apply dict_get_absent. intros Hin. apply Hk in Hin as (i & Hi & Hc).
    assert (existsb (in_category "Electronics") (items st) = true).
    { apply existsb_exists. exists i. split; auto.
      unfold in_category. rewrite Hc. apply String.eqb_refl. }
    congruence. }
  destruct (other_tips_differ_from_electronics (total st))
    as (H1 & H2 & H3 & H4 & H5 & H6).
  unfold savings_tip. cbv zeta. rewrite Hget.
  change (fltb (of_int 1500) zero) with false.
  repeat match goal with
         | |- (if ?b then _ else _) <> _ => destruct b; auto
         end.
Qed.

Lemma lstrip_char_repeat ch n s :
  lstrip_char ch (repeat ch n ++ s) = lstrip_char ch s.
Proof.
  induction n as [|n IH]; simpl; auto. now rewrite Ascii.eqb_refl.
Qed.

Lemma lstrip_char_split ch s :
  exists n r,
    s = repeat ch n ++ r /\ lstrip_char ch s = r /\
    forall r', r <> ch :: r'.
Proof.
  induction s as [|c s (n & r & E & Hr & Hne)]; simpl.
  - exists 0, []. repeat split; auto. discriminate.
  - destruct (Ascii.eqb_spec c ch) as [-> | Hc].
    + exists (S n), r. simpl. rewrite <- E. auto.
    + exists 0, (c :: s). repeat split; auto. intros r' H. congruence.
Qed.

Lemma rev_repeat {A} (x : A) n : rev (repeat x n) = repeat x n.
Proof.
  induction n as [|n IH]; simpl; auto.
  rewrite IH. clear IH. induction n as [|n IH]; simpl; auto.
  now rewrite IH.
Qed.

(** What [rstrip] leaves: the text without its trailing run of [ch]. *)
Lemma rstrip_char_split ch s :
  exists base n,
    s = base ++ repeat ch n /\ rstrip_char ch s = base /\
    forall b, base <> b ++ [ch].
Proof.
  unfold rstrip_char.
  destruct (lstrip_char_split ch (rev s)) as (n & r & E & Hr & Hne).
  exists (rev r), n. rewrite Hr. repeat split; auto.
  - rewrite <- (rev_involutive s), E, rev_app_distr, rev_repeat. reflexivity.
  - intros b Hb. apply (Hne (rev b)).
    rewrite <- (rev_involutive r), Hb, rev_app_distr. reflexivity.
Qed.

(** X8: the URL made for an upload is the host URL without its trailing
    slashes, then [/uploads/], then the file name; what it is built on
    never ends with a slash, and more or fewer slashes at the end of the
    host URL give the same URL. *)
Theorem upload_url_ignores_trailing_slashes (host_url filename : text) (n : nat) :
  (exists base m,
      host_url = base ++ repeat slash m /\
      (forall b, base <> b ++ [slash]) /\
      upload_to_s3_simulated host_url filename
      = base ++ str "/uploads/" ++ filename) /\
  upload_to_s3_simulated (host_url ++ repeat slash n) filename
  = upload_to_s3_simulated host_url filename.
Proof.
  split.
  - destruct (rstrip_char_split slash host_url) as (base & m & E & Hr & Hne).
    exists base, m. unfold upload_to_s3_simulated. rewrite Hr. auto.
  - unfold upload_to_s3_simulated, rstrip_char. f_equal. f_equal.
    rewrite rev_app_distr, rev_repeat. apply lstrip_char_repeat.
Qed.

Lemma text_eqb_false a b : a <> b -> text_eqb a b = false.
Proof.
  intros H. unfold text_eqb. destruct (list_eq_dec ascii_dec a b); tauto.
Qed.

Lemma starts_with_http s :
  starts_with (str "http") s = true -> exists r, s = str "http" ++ r.
Proof. intros H. now apply starts_with_spec in H. Qed.

Lemma lstrip_char_app_other ch a y b :
  Ascii.eqb y ch = false ->
  lstrip_char ch (a ++ y :: b) = lstrip_char ch a ++ y :: b.
Proof.
  intros Hy. induction a as [|c a IH]; simpl.
  - now rewrite Hy.
  - destruct (Ascii.eqb c ch); auto.
Qed.

Lemma rstrip_char_app_other ch a y b :
  Ascii.eqb y ch = false ->
  rstrip_char ch (a ++ y :: b) = a ++ y :: rstrip_char ch b.
Proof.
  intros Hy. unfold rstrip_char.
  rewrite rev_app_distr. simpl. rewrite <- app_assoc. simpl.
  rewrite lstrip_char_app_other by exact Hy.
  rewrite rev_app_distr. simpl. rewrite rev_involutive, <- app_assoc.
  reflexivity.
Qed.

Lemma rstrip_char_keeps_http r :
  rstrip_char slash (str "http" ++ r) = str "http" ++ rstrip_char slash r.
Proof.
  apply (rstrip_char_app_other slash (str "htt") "p"%char r). reflexivity.
Qed.

Lemma strip_keeps_http r :
  strip (str "http" ++ r) = str "http" ++ rstrip r.
Proof.
  unfold strip. change (lstrip (str "http" ++ r)) with (str "http" ++ r).
  apply (rstrip_app_nonspace (str "htt") "p"%char r). reflexivity.
Qed.

(** X9: when the host URL of the request begins with [http], the URL made
    for the upload passes the test of the home page (line 107 of
    [home.py]) and, once stripped and lowercased, the test of the dashboard
    (line 93 of [dashboard.py]): both pages show the image. *)
Theorem upload_url_is_shown (host_url filename : text) :
  starts_with (str "http") host_url = true ->
  home_shows_image (upload_to_s3_simulated host_url filename) = true /\
  no_image (lower (strip (upload_to_s3_simulated host_url filename))) = false.
Proof.
  intros H. apply starts_with_http in H as [r ->].
  unfold upload_to_s3_simulated.
  rewrite rstrip_char_keeps_http, <- app_assoc. split.
  - reflexivity.
  - rewrite strip_keeps_http. unfold lower. rewrite map_app.
    change (map lower_char (str "http")) with (str "http").
    unfold no_image. rewrite text_eqb_false by discriminate. reflexivity.
Qed.

Lemma upload_url_is_shown_witness :
  home_shows_image
    (upload_to_s3_simulated (str "http://127.0.0.1:5000/") (str "bill.png"))
  = true /\
  no_image
    (lower (strip (upload_to_s3_simulated (str "http://127.0.0.1:5000/")
                                          (str "bill.png")))) = false.
Proof.
  apply (@upload_url_is_shown (str "http://127.0.0.1:5000/") (str "bill.png")).
  reflexivity.
Defined.

Lemma mem_spec x l : mem x l = true <-> In x l.
Proof.
  unfold mem. rewrite existsb_exists. split.
  - intros (y & Hy & E). unfold text_eqb in E.
    destruct (list_eq_dec ascii_dec x y) as [-> | _]; [auto | discriminate].
  - intros H. exists x. split; auto. unfold text_eqb.
    destruct (list_eq_dec ascii_dec x x); auto.
Qed.

Lemma key_used_spec ts keys :
  existsb (String.eqb ts) keys = true <-> In ts keys.
Proof.
  rewrite existsb_exists. split.
  - intros (k & Hk & E). apply String.eqb_eq in E. now subst.
  - intros H. exists ts. split; auto. apply String.eqb_refl.
Qed.

(** The entries shown, for any set of URLs shown and of keys used before. *)
Lemma gallery_spec is_date raw_data : forall displayed keys,
  NoDup (map normalised_url (fst (gallery is_date displayed keys raw_data))) /\
  (forall e, In e (fst (gallery is_date displayed keys raw_data)) ->
             In e raw_data /\ no_image (normalised_url e) = false /\
             ~ In (normalised_url e) displayed) /\
  (snd (gallery is_date displayed keys raw_data) = Completed ->
   forall e, In e raw_data -> no_image (normalised_url e) = false ->
             In (normalised_url e) displayed \/
             In (normalised_url e)
                (map normalised_url
                     (fst (gallery is_date displayed keys raw_data)))).
Proof.
  induction raw_data as [|entry rest IH]; intros displayed keys; simpl.
  - split; [constructor|]. split; [intros e [] | intros _ e []].
  - destruct (no_image (normalised_url entry)) eqn:Hno.
    { destruct (IH displayed keys) as (Hnd & Hin & Hcov).
      split; auto. split.
      - intros e He. destruct (Hin e He) as (? & ? & ?). auto.
      - intros Hc e [<- | He] Hv; [congruence | auto]. }
    destruct (mem (normalised_url entry) displayed) eqn:Hmem.
    { apply mem_spec in Hmem.
      destruct (IH displayed keys) as (Hnd & Hin & Hcov).
      split; auto. split.
      - intros e He. destruct (Hin e He) as (? & ? & ?). auto.
      - intros Hc e [<- | He] Hv; auto. }
    assert (Hfresh : ~ In (normalised_url entry) displayed).
    { intros H. apply mem_spec in H. congruence. }
    destruct (is_date (timestamp entry)); simpl.
    2:{ split; [constructor|]. split; [intros e [] | discriminate]. }
    destruct (existsb (String.eqb (timestamp entry)) keys); simpl.
    { split; [repeat constructor; simpl; tauto|]. split; [|discriminate].
      intros e [<- | []]. auto. }
    destruct (IH (normalised_url entry :: displayed) (timestamp entry :: keys))
      as (Hnd & Hin & Hcov).
    destruct (gallery is_date (normalised_url entry :: displayed)
                      (timestamp entry :: keys) rest) as [shown how].
    simpl in *. split; [|split].
    + constructor; auto. intros H. apply in_map_iff in H as (e & E & He).
      destruct (Hin e He) as (_ & _ & Hn). apply Hn. auto.
    + intros e [<- | He]; [auto|].
      destruct (Hin e He) as (? & ? & Hn). tauto.
    + intros Hc e [<- | He] Hv; [auto|].
      destruct (Hcov Hc e He Hv) as [[<- | H] | H]; auto.
Qed.

(** When [pd.to_datetime] accepts every timestamp of the file and no two
    entries have the same one, no call of the loop raises. *)
Lemma gallery_completes is_date raw_data : forall displayed keys,
  forallb is_date (map timestamp raw_data) = true ->
  NoDup (map timestamp raw_data) ->
  (forall e, In e raw_data -> ~ In (timestamp e) keys) ->
  snd (gallery is_date displayed keys raw_data) = Completed.
Proof.
  induction raw_data as [|entry rest IH]; intros displayed keys Hd Hnd Hk;
    simpl in *; auto.
  apply andb_true_iff in Hd as [Hd Hds].
  inversion Hnd as [|? ? Hnin Hnd']; subst.
  assert (Hrest : forall ks, (forall e, In e rest -> ~ In (timestamp e) ks) ->
                             forall d, snd (gallery is_date d ks rest)
                                       = Completed).
  { intros ks Hks d. apply IH; auto. }
  destruct (no_image (normalised_url entry)); [apply Hrest; auto|].
  destruct (mem (normalised_url entry) displayed); [apply Hrest; auto|].
  rewrite Hd. simpl.
  destruct (existsb (String.eqb (timestamp entry)) keys) eqn:E.
  { apply key_used_spec in E. exfalso. apply (Hk entry); auto. }
  assert (Hnew : forall e, In e rest ->
                           ~ In (timestamp e) (timestamp entry :: keys)).
  { intros e He [E' | E']; [|apply (Hk e); auto].
    apply Hnin. rewrite E'. now apply in_map. }
  specialize (Hrest (timestamp entry :: keys) Hnew
                    (normalised_url entry :: displayed)).
  destruct (gallery is_date (normalised_url entry :: displayed)
                    (timestamp entry :: keys) rest) as [shown how].
  exact Hrest.
Qed.


(** X17: when [pd.to_datetime] accepts every timestamp of the file and no
    two entries have the same timestamp, no call of the gallery loop
    raises: the loop runs to its end and every image URL of the file is
    shown once. *)
Theorem gallery_completes_on_distinct_dates
        (is_date : string -> bool) (raw_data : list receipt) :
  forallb is_date (map timestamp raw_data) = true ->
  NoDup (map timestamp raw_data) ->
  snd (gallery is_date [] [] raw_data) = Completed /\
  Forall (fun e =>
            if no_image (normalised_url e) then True
            else In (normalised_url e)
                    (map normalised_url
                         (fst (gallery is_date [] [] raw_data))))
         raw_data.
Proof.
  intros Hd Hnd.
  assert (Hc : snd (gallery is_date [] [] raw_data) = Completed).
  { apply gallery_completes; auto. }
  split; auto.
  destruct (gallery_spec is_date raw_data [] []) as (_ & _ & Hcov).
  apply Forall_forall. intros e He.
  destruct (no_image (normalised_url e)) eqn:Hv; auto.
  destruct (Hcov Hc e He Hv) as [[] | H]; auto.
Qed.

Lemma gallery_completes_on_distinct_dates_witness :
  snd (gallery (fun _ => true) [] []
               [Receipt "madhu" "2024-05-01T09:00:00" [] zero [] no_data
                        "http://127.0.0.1:5000/uploads/a.png";
                Receipt "madhu" "2024-05-02T10:00:00" [] zero [] no_data
                        "http://127.0.0.1:5000/uploads/b.png"])
  = Completed /\
  Forall (fun e =>
            if no_image (normalised_url e) then True
            else In (normalised_url e)
                    (map normalised_url
                         (fst (gallery (fun _ => true) [] []
               [Receipt "madhu" "2024-05-01T09:00:00" [] zero [] no_data
                        "http://127.0.0.1:5000/uploads/a.png";
                Receipt "madhu" "2024-05-02T10:00:00" [] zero [] no_data
                        "http://127.0.0.1:5000/uploads/b.png"]))))
         [Receipt "madhu" "2024-05-01T09:00:00" [] zero [] no_data
                  "http://127.0.0.1:5000/uploads/a.png";
          Receipt "madhu" "2024-05-02T10:00:00" [] zero [] no_data
                  "http://127.0.0.1:5000/uploads/b.png"].
Proof.
  apply (@gallery_completes_on_distinct_dates
           (fun _ => true)
           [Receipt "madhu" "2024-05-01T09:00:00" [] zero [] no_data
                    "http://127.0.0.1:5000/uploads/a.png";
            Receipt "madhu" "2024-05-02T10:00:00" [] zero [] no_data
                    "http://127.0.0.1:5000/uploads/b.png"]).
  - reflexivity.
  - simpl. constructor; [|constructor; [|constructor]]; simpl.
    + intros [E | []]. apply String.eqb_eq in E. vm_compute in E.
      discriminate.
    + tauto.
Defined.

(** X11: saving a receipt and then deleting it from the dashboard gives
    back the [results.json] there was, provided no receipt in it has the
    timestamp of the new one. *)
Theorem delete_undoes_save (r : receipt) (w : world) :
  Forall (fun e => timestamp e <> timestamp r) (results_json w) ->
  delete_receipt r (results_json (save_result r w)) = results_json w.
Proof.
  intros H. unfold delete_receipt, save_result. simpl.
  rewrite filter_app. simpl. rewrite String.eqb_refl. simpl.
  rewrite app_nil_r.
  induction H as [|e l He _ IH]; simpl; auto.
  apply String.eqb_neq in He. rewrite He. simpl. now rewrite IH.
Qed.

Lemma delete_undoes_save_witness :
  delete_receipt
    (Receipt "madhu" "2024-05-02T10:00:00" [] zero [] no_data "u")
    (results_json
       (save_result
          (Receipt "madhu" "2024-05-02T10:00:00" [] zero [] no_data "u")
          (World "now" "u"
                 [Receipt "madhu" "2024-05-01T09:00:00" [] zero [] no_data
                          "v"])))
  = [Receipt "madhu" "2024-05-01T09:00:00" [] zero [] no_data "v"].
Proof.
  apply (@delete_undoes_save
           (Receipt "madhu" "2024-05-02T10:00:00" [] zero [] no_data "u")
           (World "now" "u"
                  [Receipt "madhu" "2024-05-01T09:00:00" [] zero [] no_data
                           "v"])).
  simpl. constructor; [|constructor].
  intros E. apply String.eqb_eq in E. vm_compute in E. discriminate.
Defined.

(** X12: once a receipt is deleted, neither it nor any receipt saved with
    the same timestamp is left in the file or shown in the gallery, every
    receipt with another timestamp stays, and deleting again changes
    nothing. *)
Theorem deleted_receipt_is_gone
        (is_date : string -> bool) (entry : receipt)
        (raw_data : list receipt) :
  Forall (fun e => timestamp e <> timestamp entry)
         (delete_receipt entry raw_data) /\
  Forall (fun e => timestamp e <> timestamp entry)
         (fst (gallery is_date [] [] (delete_receipt entry raw_data))) /\
  Forall (fun e => if String.eqb (timestamp e) (timestamp entry) then True
                   else In e (delete_receipt entry raw_data)) raw_data /\
  delete_receipt entry (delete_receipt entry raw_data)
  = delete_receipt entry raw_data.
Proof.
  assert (H1 : Forall (fun e => timestamp e <> timestamp entry)
                      (delete_receipt entry raw_data)).
  { apply Forall_forall. intros e He. unfold delete_receipt in He.
    apply filter_In in He as [_ He]. apply negb_true_iff in He.
    now apply String.eqb_neq. }
  split; auto. split; [|split].
  - apply Forall_forall. intros e He.
    destruct (gallery_spec is_date (delete_receipt entry raw_data) [] [])
      as (_ & Hin & _).
    destruct (Hin e He) as (Hd & _).
    rewrite Forall_forall in H1. auto.
  - apply Forall_forall. intros e He.
    destruct (String.eqb (timestamp e) (timestamp entry)) eqn:E; auto.
    unfold delete_receipt. apply filter_In. now rewrite E.
  - unfold delete_receipt at 1. apply forallb_filter_id.
    apply forallb_forall. intros e He.
    rewrite Forall_forall in H1. apply H1 in He.
    apply String.eqb_neq in He. now rewrite He.
Qed.

Lemma categorize_is_a_category (nm : text) : In (categorize nm) categories.
Proof.
  unfold categorize, categories. cbv zeta.
  repeat match goal with
         | |- context [if any_in ?ks ?n then _ else _] =>
             destruct (any_in ks n); [simpl; tauto|]
         end.
  simpl; tauto.
Qed.

Lemma max_from_is_a_key d : forall best best_val,
  max_from best best_val d = best \/ In (max_from best best_val d) (map fst d).
Proof.
  induction d as [|[k v] d IH]; intros best best_val; simpl; auto.
  destruct (fltb best_val v).
  - destruct (IH k v) as [-> | H]; auto.
  - destruct (IH best best_val) as [-> | H]; auto.
Qed.

Lemma max_key_is_a_key d :
  d <> [] -> exists k, max_key d = inr k /\ In k (map fst d).
Proof.
  destruct d as [|[k v] d]; [congruence|]. intros _.
  simpl. eexists. split; [reflexivity|].
  destruct (max_from_is_a_key d k v) as [-> | H]; auto.
Qed.

Lemma rows_of_items_ok r its :
  (its <> [] -> category_breakdown r <> []) ->
  exists rows,
    rows_of_items r its = inr rows /\ length rows = length its /\
    Forall (fun x => In (row_category x) (map fst (category_breakdown r)))
           rows.
Proof.
  intros H. induction its as [|i its IH]; simpl.
  - exists []. auto.
  - destruct (@max_key_is_a_key (category_breakdown r)) as (k & Hk & Hin).
    { apply H. discriminate. }
    destruct IH as (rows & Hr & Hl & Hc).
    { intros _. apply H. discriminate. }
    rewrite Hk, Hr. simpl. eexists. split; [reflexivity|]. simpl.
    split; [now rewrite Hl|]. constructor; auto.
Qed.

(** X13: on a [results.json] made of receipts the backend sent, building
    the rows of the dashboard never raises: [max] is never asked for the
    largest key of an empty breakdown.  There is one row for each item of
    each receipt, labelled with one of the nine categories. *)
Theorem dashboard_rows_never_fail (data : list receipt) :
  Forall (fun r => exists extracted_text w,
                     fst (upload_image extracted_text w) = Ok200 r) data ->
  exists rows,
    dashboard_rows data = inr rows /\
    length rows = length (flat_map r_items data) /\
    Forall (fun x => In (row_category x) categories) rows.
Proof.
  induction 1 as [|r data (t & w & Hr) _ IH]; simpl.
  - exists []. auto.
  - destruct (parse_breakdown t) as (st & Hp & _ & Hk & _).
    unfold upload_image in Hr. rewrite Hp in Hr. simpl in Hr.
    injection Hr as <-.
    destruct (@rows_of_items_ok
                (Receipt "madhu" (now w) (items st) (total st)
                         (category_totals st)
                         (savings_tip (items st) (category_totals st)
                                      (total st))
                         (url w))
                (items st)) as (rows & Hrows & Hl & Hc).
    { simpl. destruct (items st) as [|i its]; [congruence|]. intros _ E.
      assert (H : In (categorize (name i)) (map fst (category_totals st))).
      { apply Hk. exists i. simpl. auto. }
      rewrite E in H. destruct H. }
    destruct IH as (rows' & Hrows' & Hl' & Hc').
    cbn [r_items]. rewrite Hrows, Hrows'. simpl.
    eexists. split; [reflexivity|].
    rewrite !length_app, Hl, Hl'. split; [reflexivity|].
    apply Forall_app. split; auto.
    eapply Forall_impl; [|exact Hc]. simpl. intros x Hx.
    apply Hk in Hx as (i & _ & <-). apply categorize_is_a_category.
Qed.

Lemma dashboard_rows_never_fail_witness :
  exists rows,
    dashboard_rows
      [Receipt "madhu" "t" [Item (str "Milk") (of_ratio 45 1)]
               (of_ratio 45 1) [("Essentials"%string, of_ratio 45 1)]
               excellent "u"]
    = inr rows /\
    length rows
    = length (flat_map r_items
                [Receipt "madhu" "t" [Item (str "Milk") (of_ratio 45 1)]
                         (of_ratio 45 1)
                         [("Essentials"%string, of_ratio 45 1)]
                         excellent "u"]) /\
    Forall (fun x => In (row_category x) categories) rows.
Proof.
  apply (@dashboard_rows_never_fail
           [Receipt "madhu" "t" [Item (str "Milk") (of_ratio 45 1)]
                    (of_ratio 45 1) [("Essentials"%string, of_ratio 45 1)]
                    excellent "u"]).
  constructor; [|constructor].
  exists (str "Milk 45"), (World "t" "u" []). vm_compute. reflexivity.
Defined.

(** X14: for every receipt the backend sends, the home page shows the
    items table and the category chart together, or the two warnings
    together; it always shows the total and the tip. *)
Theorem home_page_is_consistent (extracted_text : text) (w : world) :
  exists r,
    fst (upload_image extracted_text w) = Ok200 r /\
    (home_view r
     = [TotalSpent (r_total r); NoItemsWarning; NoBreakdownWarning;
        TipBox (savings_tip_of r);
        if home_shows_image (str (image_url r))
        then ProcessedImage (image_url r) else NoImageWarning]
     \/ home_view r
        = [TotalSpent (r_total r); ItemsTable (r_items r);
           CategoryChart (category_breakdown r);
           TipBox (savings_tip_of r);
           if home_shows_image (str (image_url r))
           then ProcessedImage (image_url r) else NoImageWarning]).
Proof.
  destruct (parse_breakdown extracted_text) as (st & Hp & _ & Hk & _).
  unfold upload_image. rewrite Hp. simpl.
  eexists. split; [reflexivity|]. unfold home_view. cbn [r_items r_total
    category_breakdown savings_tip_of image_url].
  destruct (items st) as [|i its] eqn:Ei;
    destruct (category_totals st) as [|[k v] d] eqn:Ed; simpl; auto.
  - exfalso. assert (H : exists i, In i [] /\ categorize (name i) = k).
    { apply Hk. simpl. auto. }
    destruct H as (? & [] & _).
  - exfalso.
    assert (H : In (categorize (name i)) (@map (string * float) _ fst [])).
    { apply Hk. exists i. simpl. auto. }
    destruct H.
Qed.

Lemma strip_last s body c : strip s = body ++ [c] -> is_space c = false.
Proof.
  unfold strip, rstrip. intros H.
  apply (f_equal (@rev ascii)) in H.
  rewrite rev_involutive, rev_app_distr in H. simpl in H.
  eapply lstrip_head; eauto.
Qed.

Lemma newline_is_space c : is_newline c = true -> is_space c = true.
Proof. by_cases_on c. Qed.

Lemma number_shape_last tok :
  number_shape tok ->
  exists body c, tok = body ++ [c] /\ digit_or_comma c = true.
Proof.
  intros (dc & frac & -> & Hdc & Hlen & [-> | (d & ds & -> & _ & Hds & Hl & _)]).
  - destruct (exists_last (l := dc)) as (b & c & ->).
    { destruct dc; simpl in *; [lia | discriminate]. }
    exists b, c. rewrite app_nil_r. split; auto.
    rewrite forallb_app in Hdc. simpl in Hdc.
    apply andb_true_iff in Hdc as [_ Hc]. now rewrite andb_true_r in Hc.
  - destruct (exists_last (l := ds)) as (b & c & ->).
    { destruct ds; simpl in *; [lia | discriminate]. }
    exists (dc ++ d :: b), c. rewrite <- app_assoc. split; auto.
    rewrite forallb_app in Hds. simpl in Hds.
    apply andb_true_iff in Hds as [_ Hc]. rewrite andb_true_r in Hc.
    unfold digit_or_comma. now rewrite Hc.
Qed.

(** Where a numeric token ends a text up to the newline [$] allows, the
    last character is a digit, a comma or that newline. *)
Lemma ends_with_token pre tok tail body c :
  number_shape tok -> at_end tail = true ->
  pre ++ tok ++ tail = body ++ [c] ->
  digit_or_comma c = true \/ is_newline c = true.
Proof.
  intros Hn Hend E.
  destruct (@number_shape_last _ Hn) as (tb & tc & -> & Htc).
  destruct tail as [|nl [|x tail]]; simpl in Hend; try discriminate.
  - rewrite app_nil_r, app_assoc in E.
    apply app_inj_tail in E as [_ <-]. auto.
  - rewrite !app_assoc in E. apply app_inj_tail in E as [_ <-]. auto.
Qed.

(** X15: a line that, once stripped, does not end with a digit or a comma
    never gives an item and never changes the total: the loop leaves the
    state as it is or only prints that nothing matched. *)
Theorem line_without_trailing_number_gives_nothing
        (st : state) (raw body : text) (c : ascii) :
  strip raw = body ++ [c] ->
  digit_or_comma c = false ->
  process_line st raw = inr st \/
  process_line st raw = inr (print (NoItemMatch (strip raw)) st).
Proof.
  intros Hline Hc.
  assert (Hsp : is_newline c = false).
  { destruct (is_newline c) eqn:E; auto.
    apply newline_is_space in E. rewrite (@strip_last _ _ _ Hline) in E.
    discriminate. }
  unfold process_line. destruct (skipped (strip raw)); [auto|].
  destruct (re_match item_re (strip raw)) as [m|] eqn:Hm.
  - exfalso.
    apply item_re_inv in Hm as (g1 & mid & tok & tail & E & _ & Hn & He & _).
    rewrite Hline, app_assoc in E. symmetry in E.
    destruct (@ends_with_token _ _ _ _ _ Hn He E); congruence.
  - right. unfold total_branch.
    destruct (re_search total_re (lower (strip raw))) as [tm|] eqn:Ht;
      [|reflexivity].
    exfalso.
    apply total_re_inv in Ht as (pre & tok & tail & E & _ & Hn & He & _).
    rewrite Hline in E. unfold lower in E. rewrite map_app in E. simpl in E.
    symmetry in E.
    destruct (@ends_with_token _ _ _ _ _ Hn He E) as [H | H].
    + rewrite digit_or_comma_lower in H. congruence.
    + rewrite is_newline_lower in H. congruence.
Qed.

Lemma line_without_trailing_number_gives_nothing_witness :
  process_line init (str "Thank you") = inr init \/
  process_line init (str "Thank you")
  = inr (print (NoItemMatch (strip (str "Thank you"))) init).
Proof.
  apply (@line_without_trailing_number_gives_nothing
           init (str "Thank you") (str "Thank yo") "u"%char).
  - vm_compute. reflexivity.
  - vm_compute. reflexivity.
Defined.

(** X16: a line of the text that is not skipped and, once stripped, ends
    with a digit after at least one other character is always matched by
    the item pattern, with a price token that ends with that digit, and
    the token always parses.  The loop then adds the item made of the
    stripped first group and that price when the price is in the range,
    and leaves the state exactly as it was when it is not; nothing is
    printed. *)
Theorem line_with_trailing_digit_is_an_item_line
        (st : state) (raw pre : text) (d : ascii) :
  forallb any_char raw = true ->
  skipped (strip raw) = false ->
  strip raw = pre ++ [d] ->
  pre <> [] ->
  is_digit d = true ->
  exists m p tb,
    re_match item_re (strip raw) = Some m /\
    group 2 m = tb ++ [d] /\
    py_float (remove_commas (group 2 m)) = inr p /\
    process_line st raw
    = inr (if price_ok p then add_item (strip (group 1 m)) p st else st).
Proof.
  intros Hraw Hs Hline Hpre Hd.
  apply forallb_strip in Hraw.
  assert (Hmatch : re_match item_re (strip raw) <> None).
  { rewrite Hline. apply item_re_complete.
    - destruct pre; [congruence | simpl; lia].
    - rewrite Hline, forallb_app in Hraw.
      now apply andb_true_iff in Hraw as [? _].
    - exists [d], []. simpl. unfold digit_or_comma. rewrite Hd. simpl.
      repeat split; auto. }
  unfold process_line. rewrite Hs.
  destruct (re_match item_re (strip raw)) as [m|] eqn:Hm; [|congruence].
  pose proof Hm as Hm'.
  apply item_re_inv in Hm' as (g1 & mid & tok & tail & E & _ & Hn & He & ->).
  assert (Htail : tail = []).
  { apply at_end_no_newline; auto.
    rewrite E, !forallb_app in Hraw.
    apply andb_true_iff in Hraw as [_ Hraw].
    apply andb_true_iff in Hraw as [_ Hraw].
    now apply andb_true_iff in Hraw as [_ ?]. }
  subst tail. rewrite app_nil_r in E.
  destruct (@number_shape_last _ Hn) as (tb & tc & Etok & _).
  assert (tc = d) as ->.
  { rewrite Etok, Hline, !app_assoc in E. now apply app_inj_tail in E as [_ <-]. }
  unfold item_branch. cbn [group Nat.eqb].
  destruct (py_float_token Hn) as [[Hnil _] | [_ [p Hp]]].
  - exfalso. rewrite Etok in Hnil.
    unfold remove_commas in Hnil. rewrite filter_app in Hnil. simpl in Hnil.
    fold (is_comma d) in Hnil. rewrite (digit_not_comma _ Hd) in Hnil.
    simpl in Hnil. now destruct (filter _ tb).
  - exists [(2, tok); (1, g1)], p, tb. cbn [group Nat.eqb].
    split; [reflexivity|]. split; [exact Etok|]. split; [exact Hp|].
    rewrite Hp. simpl. destruct (price_ok p); reflexivity.
Qed.

Lemma line_with_trailing_digit_is_an_item_line_witness :
  exists m p tb,
    re_match item_re (strip (str "Milk 45")) = Some m /\
    group 2 m = tb ++ ["5"%char] /\
    py_float (remove_commas (group 2 m)) = inr p /\
    process_line init (str "Milk 45")
    = inr (if price_ok p then add_item (strip (group 1 m)) p init else init).
Proof.
  apply (@line_with_trailing_digit_is_an_item_line
           init (str "Milk 45") (str "Milk 4") "5"%char).
  - vm_compute. reflexivity.
  - vm_compute. reflexivity.
  - vm_compute. reflexivity.
  - discriminate.
  - vm_compute. reflexivity.
Defined.
